(** * Bounded top-N scans over a directory tree

    A shallow embedding of the three tools under [files/]:
    [topcounts.py] (files per directory), [topdirs.py] (megabytes held
    directly by a directory) and [topfiles.py] (largest single files),
    together with the properties of the list each of them retains.

    Conventions of the embedding.
    - A Python [int] is a [Z].  The sizes in megabytes are Python floats
      obtained as [bytes / (1024 * 1024)] and added up; they are embedded
      as exact rationals [Q].  Division by [2^20] and the sums are exact
      in binary64 as long as the byte totals stay below [2^53], so on such
      trees the rational is the value of the float.
    - [os.walk], [os.path.join], [os.path.getsize] and [int] belong to the
      Python library; they are embedded from their documented behaviour.
      In the tree a stat either returns a size or raises
      [FileNotFoundError], the two outcomes the sources distinguish; a
      lookup that raises any other [OSError], which nothing catches, is
      described by [stat_error] and ends the run ([get_dir_sizes_run],
      [find_large_files_run], [main]).
    - [list.sort(key=..., reverse=True)] is a stable sort: elements whose
      keys compare equal keep their order.  It is embedded as the stable
      insertion sort [sort_desc]; [stable_sort_unique] shows that no
      other list is sorted and stable.
    - A run of a script is the list of lines it prints, what it writes
      to standard error, and the way it ends. *)

From Stdlib Require Import List ZArith QArith Bool String Ascii Lia Permutation DecimalString.
Import ListNotations.
Local Open Scope string_scope.
Local Open Scope list_scope.
Local Open Scope Z_scope.

(** ** Keys that Python can order *)

(** The keys the sources sort by are numbers; sorting only uses their
    order, a total preorder decided by [kleb]. *)
Class KeyOrder (M : Type) := {
  kleb : M -> M -> bool;
  kleb_total : forall a b, kleb a b = true \/ kleb b a = true;
  kleb_trans : forall a b c, kleb a b = true -> kleb b c = true -> kleb a c = true
}.

Lemma Zleb_total (a b : Z) : (a <=? b) = true \/ (b <=? a) = true.
Proof. destruct (Z.leb_spec a b); [now left | right; apply Z.leb_le; lia]. Qed.

Lemma Zleb_trans (a b c : Z) : (a <=? b) = true -> (b <=? c) = true -> (a <=? c) = true.
Proof. rewrite !Z.leb_le. lia. Qed.

Lemma Qleb_total (a b : Q) : Qle_bool a b = true \/ Qle_bool b a = true.
Proof.
  destruct (Qlt_le_dec b a) as [Hlt | Hle].
  - right. apply Qle_bool_iff. now apply Qlt_le_weak.
  - left. now apply Qle_bool_iff.
Qed.

Lemma Qleb_trans (a b c : Q) :
  Qle_bool a b = true -> Qle_bool b c = true -> Qle_bool a c = true.
Proof. rewrite !Qle_bool_iff. apply Qle_trans. Qed.

(** Python [int] keys (the file counts). *)
#[export] Instance Z_KeyOrder : KeyOrder Z :=
  {| kleb := Z.leb; kleb_total := Zleb_total; kleb_trans := Zleb_trans |}.

(** Python [float] keys (the sizes in megabytes). *)
#[export] Instance Q_KeyOrder : KeyOrder Q :=
  {| kleb := Qle_bool; kleb_total := Qleb_total; kleb_trans := Qleb_trans |}.

(** [a < b] on keys, and keys that compare equal. *)
Definition kltb {M} `{KeyOrder M} (a b : M) : bool := negb (kleb b a).

Definition keqb {M} `{KeyOrder M} (a b : M) : bool := kleb a b && kleb b a.

(** ** Python list operations *)

(** [len(l)] *)
Definition len {A : Type} (l : list A) : Z := Z.of_nat (List.length l).

(** [enumerate(l, start)] *)
Fixpoint enumerate {A : Type} (l : list A) (start : Z) : list (Z * A) :=
  match l with
  | [] => []
  | x :: l' => (start, x) :: enumerate l' (start + 1)
  end.

(** [a / b] on two Python ints: true division, here exact. *)
Definition truediv (a b : Z) : Q := (inject_Z a / inject_Z b)%Q.

Section PyList.
Context {M : Type} `{KeyOrder M}.

(** A measurement is the tuple [(metric, path)] the sources append:
    a pair in [M * string]. *)

Definition metric (m : M * string) : M := fst m.

(** [ins x l]: [x] stood in front of all of [l] before sorting, so it
    lands in front of the first element whose key is not strictly
    greater than its own. *)
Fixpoint ins (x : M * string) (l : list (M * string)) : list (M * string) :=
  match l with
  | [] => [x]
  | y :: l' => if kltb (metric x) (metric y) then y :: ins x l' else x :: l
  end.

(** [l.sort(key=lambda f: f[0], reverse=True)] *)
Fixpoint sort_desc (l : list (M * string)) : list (M * string) :=
  match l with
  | [] => []
  | x :: l' => ins x (sort_desc l')
  end.

(** [l[:n]]: the first [n] elements for [n >= 0], all but the last [-n]
    for a negative [n]. *)
Definition slice_to (l : list (M * string)) (n : Z) : list (M * string) :=
  if 0 <=? n then firstn (Z.to_nat n) l
  else firstn (List.length l - Z.to_nat (- n)) l.

(** The three statements that end each iteration of the loops of
    [get_dir_counts] and [get_dir_sizes]:
    [l.append(x); l.sort(key=..., reverse=True); l = l[:n]]. *)
Definition offer (n : Z) (l : list (M * string)) (x : M * string) : list (M * string) :=
  let l := l ++ [x] in
  let l := sort_desc l in
  slice_to l n.

(** The metrics of a list never increase from one element to the next. *)
Fixpoint non_increasing (l : list (M * string)) : bool :=
  match l with
  | [] => true
  | x :: l' =>
      match l' with
      | [] => true
      | y :: _ => kleb (metric y) (metric x) && non_increasing l'
      end
  end.

(** The [k] largest of a sequence of measurements, earlier ones first
    among equal metrics. *)
Definition topk (k : nat) (l : list (M * string)) : list (M * string) :=
  firstn k (sort_desc l).

End PyList.

(** ** The directory tree and [os.walk] *)

(** What a path leads to.  A [File] is any entry that is not a directory;
    its [getsize] is what [os.path.getsize] answers: the size in bytes,
    or [None] when it raises [FileNotFoundError] (the file has vanished,
    or is a dangling link).  [Unlistable] is a path on which [os.scandir]
    raises [OSError]: nothing is there, the directory cannot be read, or,
    inside a listing, it is a link to a directory, which the walk does
    not follow. *)
#[warnings="-register-all"]
Inductive node : Type :=
| File (getsize : option Z)
| Dir (entries : list (string * node))
| Unlistable.

Definition is_dir (n : node) : bool :=
  match n with
  | File _ => false
  | _ => true
  end.

(** A name from a listing, with the answer [os.path.getsize] gives for it. *)
Definition filename : Type := (string * option Z)%type.

(** One tuple [(root, dirs, filenames)] of the walk. *)
Record walk_entry : Type := {
  root : string;
  dirs : list string;
  filenames : list filename
}.

Fixpoint endswith_sep (s : string) : bool :=
  match s with
  | EmptyString => false
  | String c EmptyString => Ascii.eqb c "/"
  | String _ s' => endswith_sep s'
  end.

(** [os.path.join(a, b)] (posixpath) *)
Definition path_join (a b : string) : string :=
  if String.prefix "/" b then b
  else if (String.eqb a EmptyString || endswith_sep a)%bool then (a ++ b)%string
  else (a ++ "/" ++ b)%string.

Fixpoint dirs_of (es : list (string * node)) : list string :=
  match es with
  | [] => []
  | (name, n) :: es' => if is_dir n then name :: dirs_of es' else dirs_of es'
  end.

Fixpoint files_of (es : list (string * node)) : list filename :=
  match es with
  | [] => []
  | (name, File sz) :: es' => (name, sz) :: files_of es'
  | _ :: es' => files_of es'
  end.

(** [os.walk(top)] with its defaults (top-down, errors of [scandir]
    ignored, links not followed): the entry of a directory comes first,
    then the walks of its subdirectories in listing order.  A path that
    cannot be listed contributes nothing. *)
Fixpoint walk (top : string) (n : node) {struct n} : list walk_entry :=
  match n with
  | Dir es =>
      {| root := top; dirs := dirs_of es; filenames := files_of es |}
      :: (fix descend (l : list (string * node)) : list walk_entry :=
            match l with
            | [] => []
            | (name, child) :: l' => walk (path_join top name) child ++ descend l'
            end) es
  | _ => []
  end.

(** The file system seen by one run: what each start path leads to. *)
Definition filesystem : Type := string -> node.

Definition os_walk (fs : filesystem) (top : string) : list walk_entry :=
  walk top (fs top).

(** ** files/topcounts.py *)

(** The body of the loop over the walk. *)
Definition counts_step (num_dirs : Z) (counts : list (Z * string)) (e : walk_entry)
  : list (Z * string) :=
  let count := len (filenames e) in
  offer num_dirs counts (count, root e).

Definition get_dir_counts (fs : filesystem) (start_dir : string) (num_dirs : Z)
  : list (Z * string) :=
  fold_left (counts_step num_dirs) (os_walk fs start_dir) [].

(** ** files/topdirs.py *)

(** The inner loop: [size += os.path.getsize(file_path) / (1024 * 1024)],
    a vanished file leaving [size] as it is. *)
Definition dir_size (files : list filename) : Q :=
  fold_left
    (fun size f =>
       match snd f with
       | Some size_bytes => (size + truediv size_bytes (1024 * 1024))%Q
       | None => size
       end)
    files 0%Q.

(** The body of the loop over the walk. *)
Definition sizes_step (num_dirs : Z) (sizes : list (Q * string)) (e : walk_entry)
  : list (Q * string) :=
  let size := dir_size (filenames e) in
  offer num_dirs sizes (size, root e).

Definition get_dir_sizes (fs : filesystem) (start_dir : string) (num_dirs : Z)
  : list (Q * string) :=
  fold_left (sizes_step num_dirs) (os_walk fs start_dir) [].

(** ** files/topfiles.py *)

Definition MIN_FILE_SIZE : Q := 1%Q.

(** The body of the inner loop, for one file name of the directory [rt]. *)
Definition files_step (max_files : Z) (rt : string) (files : list (Q * string))
  (f : filename) : list (Q * string) :=
  let file_path := path_join rt (fst f) in
  match snd f with
  | Some size_bytes =>
      let size_mb := truediv size_bytes (1024 * 1024) in
      let files :=
        if Qle_bool MIN_FILE_SIZE size_mb then files ++ [(size_mb, file_path)]
        else files in
      if len files >=? max_files then slice_to (sort_desc files) max_files
      else files
  | None => files
  end.

Definition find_large_files (fs : filesystem) (start_dir : string) (max_files : Z)
  : list (Q * string) :=
  fold_left
    (fun files e => fold_left (files_step max_files (root e)) (filenames e) files)
    (os_walk fs start_dir) [].

(** [files.sort(...); return files[:n]] *)
Definition get_top_n (files : list (Q * string)) (n : Z) : list (Q * string) :=
  slice_to (sort_desc files) n.

(** ** Size lookups that raise *)

(** The exceptions that the scripts let through. *)
Inductive exception : Type :=
| ValueError
| OSError.

(** A call returns a value or raises. *)
Inductive outcome (A : Type) : Type :=
| Returns (value : A)
| Raises (e : exception).

Arguments Returns {A} value.
Arguments Raises {A} e.

(** [os.path.getsize] can also raise an [OSError] that is no
    [FileNotFoundError]: the name is a link that loops, or the directory
    may not be searched.  [topdirs.py] and [topfiles.py] catch
    [FileNotFoundError] only, so such an error leaves the loops and the
    function.  In the definitions below [stat_error] tells on which
    paths the lookup raises in this way; on every other path it answers
    as the tree says.  [get_dir_counts] looks up no size. *)

(** The inner loop of [get_dir_sizes]. *)
Definition dir_size_run (stat_error : string -> bool) (rt : string)
  (files : list filename) : outcome Q :=
  fold_left
    (fun acc f =>
       match acc with
       | Raises e => Raises e
       | Returns size =>
           let file_path := path_join rt (fst f) in
           if stat_error file_path then Raises OSError
           else
             match snd f with
             | Some size_bytes => Returns (size + truediv size_bytes (1024 * 1024))%Q
             | None => Returns size
             end
       end)
    files (Returns 0%Q).

Definition get_dir_sizes_run (stat_error : string -> bool) (fs : filesystem)
  (start_dir : string) (num_dirs : Z) : outcome (list (Q * string)) :=
  fold_left
    (fun acc e =>
       match acc with
       | Raises x => Raises x
       | Returns sizes =>
           match dir_size_run stat_error (root e) (filenames e) with
           | Raises x => Raises x
           | Returns size => Returns (offer num_dirs sizes (size, root e))
           end
       end)
    (os_walk fs start_dir) (Returns []).

(** The body of the inner loop of [find_large_files]: the lookup is the
    first statement of the [try]. *)
Definition files_step_run (stat_error : string -> bool) (max_files : Z) (rt : string)
  (acc : outcome (list (Q * string))) (f : filename) : outcome (list (Q * string)) :=
  match acc with
  | Raises e => Raises e
  | Returns files =>
      let file_path := path_join rt (fst f) in
      if stat_error file_path then Raises OSError
      else Returns (files_step max_files rt files f)
  end.

Definition find_large_files_run (stat_error : string -> bool) (fs : filesystem)
  (start_dir : string) (max_files : Z) : outcome (list (Q * string)) :=
  fold_left
    (fun acc e => fold_left (files_step_run stat_error max_files (root e)) (filenames e) acc)
    (os_walk fs start_dir) (Returns []).

(** Some size lookup of the scan raises. *)
Definition lookup_raises (stat_error : string -> bool) (e : walk_entry) : bool :=
  existsb (fun f => stat_error (path_join (root e) (fst f))) (filenames e).

Definition scan_raises (stat_error : string -> bool) (fs : filesystem)
  (start_dir : string) : bool :=
  existsb (lookup_raises stat_error) (os_walk fs start_dir).

(** ** The command lines *)

(** How a run ends: off the end of the script, by [sys.exit(code)], or
    by an exception nobody catches (a traceback, status 1). *)
Inductive ending : Type :=
| Finished
| SysExit (code : Z)
| Uncaught (e : exception).

Definition exit_status (e : ending) : Z :=
  match e with
  | Finished => 0
  | SysExit code => code
  | Uncaught _ => 1
  end.

(** A printed line: the header, or one ranked row, of which the three
    formatted values are kept. *)
Inductive line (M : Type) : Type :=
| Header (text : string)
| Row (index : Z) (value : M) (path : string).

Arguments Header {M} text.
Arguments Row {M} index value path.

Record run (M : Type) : Type := {
  stdout : list (line M);
  stderr : list string;
  exit : ending
}.

Arguments stdout {M} r.
Arguments stderr {M} r.
Arguments exit {M} r.

(** ["{:>w}".format(s)] *)
Definition rjust (w : nat) (s : string) : string :=
  (string_of_list_ascii (repeat " "%char (w - String.length s)) ++ s)%string.

(** ["{:>5}  {:>5}  {}".format(a, b, c)] *)
Definition header_row (a b c : string) : string :=
  (rjust 5 a ++ "  " ++ rjust 5 b ++ "  " ++ c)%string.

(** [for i, (value, path) in enumerate(l, 1): print(...)] *)
Definition rows {M : Type} (l : list (M * string)) : list (line M) :=
  map (fun r => Row (fst r) (fst (snd r)) (snd (snd r))) (enumerate l 1).

(** [int(s)] on plain decimal literals, for concrete runs. *)
Definition int_literal (s : string) : option Z :=
  option_map Z.of_int (NilZero.int_of_string s).

Section CommandLine.

(** [int(s)]: the integer the string denotes, or [None] where [int]
    raises [ValueError]. *)
Variable py_int : string -> option Z.

(** The [__main__] block, the same in the three scripts up to the usage
    text, the header columns and the scan: the argument count is
    checked, the header is printed, [int(sys.argv[1])] is evaluated, and
    the scan of [sys.argv[2]] is printed row by row.  Nothing is caught:
    an exception of [int] or of the scan ends the run after the header. *)
Definition main {M : Type} (usage : string) (col2 col3 : string)
  (scan : filesystem -> string -> Z -> outcome (list (M * string)))
  (fs : filesystem) (argv : list string) : run M :=
  if negb (len argv =? 3) then
    {| stdout := []; stderr := [usage]; exit := SysExit 1 |}
  else
    let header := Header (header_row "Index" col2 col3) in
    match py_int (nth 1 argv EmptyString) with
    | None => {| stdout := [header]; stderr := []; exit := Uncaught ValueError |}
    | Some num =>
        let start_dir := nth 2 argv EmptyString in
        match scan fs start_dir num with
        | Raises e => {| stdout := [header]; stderr := []; exit := Uncaught e |}
        | Returns result =>
            {| stdout := header :: rows result; stderr := []; exit := Finished |}
        end
    end.

Definition topcounts_main : filesystem -> list string -> run Z :=
  main "Usage: topcounts <num_dirs> <start_dir>" "Counts" "Directory"
    (fun fs start_dir num_dirs => Returns (get_dir_counts fs start_dir num_dirs)).

Definition topdirs_main (stat_error : string -> bool)
  : filesystem -> list string -> run Q :=
  main "Usage: topdirs <num_dirs> <start_dir>" "Size (MB)" "Directory"
    (get_dir_sizes_run stat_error).

Definition topfiles_main (stat_error : string -> bool)
  : filesystem -> list string -> run Q :=
  main "Usage: topfiles <num_files> <start_dir>" "Size (MB)" "Filename"
    (fun fs start_dir num_files =>
       match find_large_files_run stat_error fs start_dir num_files with
       | Raises e => Raises e
       | Returns files => Returns (get_top_n files num_files)
       end).

End CommandLine.

(** ** The selector of section 4.3, as the specification words it *)

Section Selector.
Context {M : Type} `{KeyOrder M}.

(** Insert in sorted position, behind the entries already there whose
    metric is equal. *)
Fixpoint insert_sorted (x : M * string) (l : list (M * string)) : list (M * string) :=
  match l with
  | [] => [x]
  | y :: l' => if kleb (metric x) (metric y) then y :: insert_sorted x l' else x :: l
  end.

(** One [offer] of the compare-and-evict algorithm with capacity [K]. *)
Definition offer_evict (K : Z) (l : list (M * string)) (x : M * string)
  : list (M * string) :=
  if len l <? K then insert_sorted x l
  else
    match rev l with
    | [] => l
    | tail :: _ =>
        if kltb (metric tail) (metric x) then insert_sorted x (removelast l)
        else l
    end.

(** The measurements whose metric compares equal to [m]. *)
Definition same_metric (m : M) (x : M * string) : bool := keqb m (metric x).

End Selector.

(** ** What the scans measure *)

(** One measurement per visited directory: its number of file names. *)
Definition count_offers (fs : filesystem) (start_dir : string) : list (Z * string) :=
  map (fun e => (len (filenames e), root e)) (os_walk fs start_dir).

(** One measurement per visited directory: the megabytes it holds directly. *)
Definition size_offers (fs : filesystem) (start_dir : string) : list (Q * string) :=
  map (fun e => (dir_size (filenames e), root e)) (os_walk fs start_dir).

(** The measurement of a file of at least 1048576 bytes whose size
    lookup succeeds; nothing for any other file. *)
Definition large_file (rt : string) (f : filename) : list (Q * string) :=
  match snd f with
  | Some size_bytes =>
      if 1048576 <=? size_bytes
      then [(truediv size_bytes 1048576, path_join rt (fst f))]
      else []
  | None => []
  end.

Definition large_files (e : walk_entry) : list (Q * string) :=
  flat_map (large_file (root e)) (filenames e).

Definition file_offers (fs : filesystem) (start_dir : string) : list (Q * string) :=
  flat_map large_files (os_walk fs start_dir).

(** The directories a walk visits, each with its own listing. *)
Fixpoint visited (top : string) (n : node) {struct n}
  : list (string * list (string * node)) :=
  match n with
  | Dir es =>
      (top, es)
      :: (fix descend (l : list (string * node)) :=
            match l with
            | [] => []
            | (name, child) :: l' => visited (path_join top name) child ++ descend l'
            end) es
  | _ => []
  end.

(** The sizes, in megabytes, of the files that sit directly in a listing
    and still exist, added up; subdirectories are passed over. *)
Fixpoint direct_megabytes (es : list (string * node)) : Q :=
  match es with
  | [] => 0%Q
  | (_, File (Some size_bytes)) :: es' =>
      (truediv size_bytes 1048576 + direct_megabytes es')%Q
  | _ :: es' => direct_megabytes es'
  end.

(** The bytes of the files that sit directly in a listing and exist. *)
Fixpoint direct_bytes (es : list (string * node)) : Z :=
  match es with
  | [] => 0
  | (_, File (Some size_bytes)) :: es' => size_bytes + direct_bytes es'
  | _ :: es' => direct_bytes es'
  end.

(** No size in the listing is negative. *)
Fixpoint sizes_nonneg (es : list (string * node)) : bool :=
  match es with
  | [] => true
  | (_, File (Some size_bytes)) :: es' => (0 <=? size_bytes) && sizes_nonneg es'
  | _ :: es' => sizes_nonneg es'
  end.

(** The directory holds fewer than [2^53] bytes directly: each quotient
    [bytes / (1024 * 1024)] and each partial sum of line 16 of
    [topdirs.py] is then a multiple of [2^-20] below [2^33], which
    binary64 holds exactly, so the float the script computes is the
    rational of this embedding. *)
Definition exact_in_binary64 (es : list (string * node)) : bool :=
  sizes_nonneg es && (direct_bytes es <? 2 ^ 53).

(** Every directory the walk visits is such. *)
Definition walk_exact_in_binary64 (fs : filesystem) (start_dir : string) : bool :=
  forallb (fun v => exact_in_binary64 (snd v)) (visited start_dir (fs start_dir)).

(** The tree without the files that have vanished. *)
Fixpoint prune (n : node) : node :=
  match n with
  | Dir es =>
      Dir ((fix go (l : list (string * node)) : list (string * node) :=
              match l with
              | [] => []
              | (name, File None) :: l' => go l'
              | (name, child) :: l' => (name, prune child) :: go l'
              end) es)
  | _ => n
  end.

Definition exists_now (f : filename) : bool :=
  match snd f with
  | Some _ => true
  | None => false
  end.

(** The walk entry of a visited directory. *)
Definition entry_of (v : string * list (string * node)) : walk_entry :=
  {| root := fst v; dirs := dirs_of (snd v); filenames := files_of (snd v) |}.

(** A listing without its vanished files, subdirectories pruned. *)
Definition prune_entries (es : list (string * node)) : list (string * node) :=
  flat_map
    (fun e =>
       match snd e with
       | File None => []
       | child => [(fst e, prune child)]
       end) es.

(** A walk entry without the names of vanished files. *)
Definition strip (e : walk_entry) : walk_entry :=
  {| root := root e; dirs := dirs e; filenames := filter exists_now (filenames e) |}.

(** [files] in [find_large_files] after the measurements [ms] were
    appended: still as appended while below capacity, the [k] largest
    from then on. *)
Definition files_inv (k : nat) (files ms : list (Q * string)) : Prop :=
  if (List.length ms <? k)%nat then files = ms else files = topk k ms.

(** ** The outcomes of a command line *)


(** The header, then [int] fails: an uncaught [ValueError]. *)
Definition value_error {M : Type} (header : string) : run M :=
  {| stdout := [Header header]; stderr := []; exit := Uncaught ValueError |}.

(** The header, then the scan raises: an uncaught [OSError]. *)
Definition os_error {M : Type} (header : string) : run M :=
  {| stdout := [Header header]; stderr := []; exit := Uncaught OSError |}.

(** The header, the rows of [result] numbered from 1, a normal end. *)
Definition report {M : Type} (header : string) (result : list (M * string)) : run M :=
  {| stdout := Header header :: rows result; stderr := []; exit := Finished |}.

(** ** Sample trees *)

Definition MB : Z := 1024 * 1024.

(** [/d] holds files of 2 MB and 3 MB and a subdirectory with one file
    of 100 MB. *)
Definition d_tree : node :=
  Dir [ ("two", File (Some (2 * MB)));
        ("sub", Dir [("hundred", File (Some (100 * MB)))]);
        ("three", File (Some (3 * MB))) ].

Definition d_fs : filesystem :=
  fun p => if String.eqb p "/d" then d_tree else Unlistable.

(** [/f] holds a file just under one megabyte (0.9 MB) and one of
    exactly one megabyte. *)
Definition f_tree : node :=
  Dir [ ("small", File (Some 943718)); ("exact", File (Some 1048576)) ].

Definition f_fs : filesystem :=
  fun p => if String.eqb p "/f" then f_tree else Unlistable.

(** [/g] as [/d], with two more names whose files have vanished since
    they were listed. *)
Definition g_tree : node :=
  Dir [ ("two", File (Some (2 * MB)));
        ("gone", File None);
        ("sub", Dir [("lost", File None); ("hundred", File (Some (100 * MB)))]);
        ("three", File (Some (3 * MB))) ].

Definition g_fs : filesystem :=
  fun p => if String.eqb p "/g" then g_tree else Unlistable.

(** [/l] holds one name, a link to itself: the walk lists it among the
    file names and its size lookup raises an [OSError]. *)
Definition l_fs : filesystem :=
  fun p => if String.eqb p "/l" then Dir [("loop", File None)] else Unlistable.

Definition l_stat_error : string -> bool := fun p => String.eqb p "/l/loop".

(** No lookup raises anything but [FileNotFoundError]. *)
Definition no_stat_error : string -> bool := fun _ => false.

(** Nothing anywhere. *)
Definition empty_fs : filesystem := fun _ => Unlistable.

(** ** Further views of the scans *)

(** The inner loops of [find_large_files] laid end to end: every file
    name the walk meets, with the directory it was listed in. *)
Definition file_visits (es : list walk_entry) : list (string * filename) :=
  flat_map (fun e => map (fun f => (root e, f)) (filenames e)) es.

(** [files] after the inner loop body has run on each of [visits]. *)
Definition files_loop (max_files : Z) (visits : list (string * filename))
  (files : list (Q * string)) : list (Q * string) :=
  fold_left (fun files v => files_step max_files (fst v) files (snd v)) visits files.

(** A path that [os.scandir] can list. *)
Definition is_listed (n : node) : bool :=
  match n with
  | Dir _ => true
  | _ => false
  end.

(** The names of a listing that are not directories. *)
Definition plain_names (es : list (string * node)) : list (string * node) :=
  filter (fun e => negb (is_dir (snd e))) es.

(** The tree in which every size lookup fails. *)
Fixpoint forget_sizes (n : node) : node :=
  match n with
  | File _ => File None
  | Dir es =>
      Dir ((fix go (l : list (string * node)) : list (string * node) :=
              match l with
              | [] => []
              | (name, child) :: l' => (name, forget_sizes child) :: go l'
              end) es)
  | Unlistable => Unlistable
  end.

(** The megabytes of all files that exist in the directories a walk of
    the tree visits, and the number of names of non-directories there. *)
Fixpoint tree_megabytes (n : node) : Q :=
  match n with
  | Dir es =>
      (direct_megabytes es
       + (fix sum (l : list (string * node)) : Q :=
            match l with
            | [] => 0
            | (_, child) :: l' => tree_megabytes child + sum l'
            end) es)%Q
  | _ => 0%Q
  end.

Fixpoint tree_names (n : node) : Z :=
  match n with
  | Dir es =>
      len (plain_names es)
      + (fix sum (l : list (string * node)) : Z :=
           match l with
           | [] => 0
           | (_, child) :: l' => tree_names child + sum l'
           end) es
  | _ => 0
  end.

Definition Qsum (l : list Q) : Q := fold_right Qplus 0%Q l.

Definition Zsum (l : list Z) : Z := fold_right Z.add 0 l.

(** ** dates/weeknumber.py *)

(** A [datetime] is held by the proleptic Gregorian ordinal of its date,
    [1] for 0001-01-01 and [MAXORDINAL] for 9999-12-31; the time of day
    plays no part in what the script computes. *)
Definition MAXORDINAL : Z := 3652059.

(** [d.weekday()]: Monday is 0, Sunday is 6. *)
Definition weekday (d : Z) : Z := (d + 6) mod 7.

Inductive date_exception : Type :=
| StrptimeValueError
| OverflowError.

(** [d + datetime.timedelta(days=n)]: [OverflowError] outside the range
    of dates. *)
Definition timedelta_add (d n : Z) : option Z :=
  if ((1 <=? d + n) && (d + n <=? MAXORDINAL))%bool then Some (d + n) else None.

(** The chain of [if]/[elif] that picks [wkdate]. *)
Definition thursday_of (date : Z) : option Z :=
  if weekday date =? 6 then timedelta_add date 4
  else if weekday date =? 0 then timedelta_add date 3
  else if weekday date =? 1 then timedelta_add date 2
  else if weekday date =? 2 then timedelta_add date 1
  else if weekday date =? 3 then Some date
  else if weekday date =? 4 then timedelta_add date (-1)
  else timedelta_add date (-2).

Definition zero_pad (w : nat) (s : string) : string :=
  (string_of_list_ascii (repeat "0"%char (w - String.length s)) ++ s)%string.

(** [f"{n:0wd}"] *)
Definition format_0d (w : nat) (n : Z) : string :=
  if n <? 0
  then ("-" ++ zero_pad (w - 1) (NilZero.string_of_int (Z.to_int (- n))))%string
  else zero_pad w (NilZero.string_of_int (Z.to_int n)).

Inductive week_outcome : Type :=
| Printed (text : string)
| Raised (e : date_exception).

Section WeekNumber.

(** The library: [datetime.strptime(s, "%Y-%m-%d")] ([None] where it
    raises [ValueError]), [datetime.today()], the fields
    [(d.year, d.month, d.day)], [d.strftime("%a")] and
    [d.isocalendar()[1]]. *)
Variable strptime : string -> option Z.
Variable today : Z.
Variable civil : Z -> Z * Z * Z.
Variable day_abbr : Z -> string.
Variable isocalendar_week : Z -> Z.

(** [weeknumber(date)]; [date] is [None] or a string, and the empty
    string is as false as [None]. *)
Definition weeknumber (date : option string) : week_outcome :=
  let parsed :=
    match date with
    | Some (String c s) => strptime (String c s)
    | _ => Some today
    end in
  match parsed with
  | None => Raised StrptimeValueError
  | Some date =>
      match thursday_of date with
      | None => Raised OverflowError
      | Some wkdate =>
          let week_num := isocalendar_week wkdate in
          let day := snd (civil date) in
          let month := snd (fst (civil date)) in
          let year := fst (fst (civil date)) in
          let day_of_week := day_abbr date in
          Printed (format_0d 4 year ++ "-" ++ format_0d 2 month ++ "-"
                   ++ format_0d 2 day ++ " (" ++ day_of_week ++ ") W"
                   ++ format_0d 2 week_num)%string
      end
  end.

Definition weeknumber_main (argv : list string) : week_outcome :=
  let date := if len argv >? 1 then Some (nth 1 argv EmptyString) else None in
  weeknumber date.

End WeekNumber.

(** * Properties *)

(** ** Sorting, slicing and the retained list *)

Section SortTheory.
Context {M : Type} `{KeyOrder M}.

Implicit Types (x y : (M * string)%type) (l : list (M * string)).

Lemma kleb_refl (a : M) : kleb a a = true.
Proof. destruct (kleb_total a a); assumption. Qed.

Lemma kltb_false_iff (a b : M) : kltb a b = false <-> kleb b a = true.
Proof. unfold kltb. destruct (kleb b a); simpl; split; congruence. Qed.

Lemma kltb_true_kleb (a b : M) : kltb a b = true -> kleb a b = true.
Proof.
  unfold kltb. intros Hlt. destruct (kleb_total a b) as [Hab | Hba]; trivial.
  rewrite Hba in Hlt. discriminate.
Qed.

Lemma kleb_false_kleb (a b : M) : kleb a b = false -> kleb b a = true.
Proof. intros Hn. destruct (kleb_total a b); congruence. Qed.

Lemma non_increasing_cons x y l :
  non_increasing (x :: y :: l) = true <->
  kleb (metric y) (metric x) = true /\ non_increasing (y :: l) = true.
Proof. cbn [non_increasing]. apply andb_true_iff. Qed.

Lemma non_increasing_tail x l : non_increasing (x :: l) = true -> non_increasing l = true.
Proof. destruct l as [| y l]; [reflexivity |]. now intros [_ Hs]%non_increasing_cons. Qed.

Lemma ins_length x l : List.length (ins x l) = S (List.length l).
Proof.
  induction l as [| y l IH]; simpl; [reflexivity |].
  destruct (kltb (metric x) (metric y)); simpl; congruence.
Qed.

Lemma sort_desc_length l : List.length (sort_desc l) = List.length l.
Proof. induction l as [| x l IH]; simpl; [reflexivity |]. now rewrite ins_length, IH. Qed.

Lemma ins_perm x l : Permutation (x :: l) (ins x l).
Proof.
  induction l as [| y l IH]; simpl; [reflexivity |].
  destruct (kltb (metric x) (metric y)); [| reflexivity].
  rewrite perm_swap. now apply perm_skip.
Qed.

Lemma sort_desc_perm l : Permutation l (sort_desc l).
Proof.
  induction l as [| x l IH]; simpl; [constructor |].
  rewrite <- ins_perm. now apply perm_skip.
Qed.

Lemma ins_non_increasing x l :
  non_increasing l = true -> non_increasing (ins x l) = true.
Proof.
  induction l as [| y l IH]; intros Hs; [reflexivity |].
  cbn [ins]. destruct (kltb (metric x) (metric y)) eqn:Hxy.
  - specialize (IH (non_increasing_tail _ _ Hs)).
    destruct l as [| z l].
    + cbn. now rewrite (kltb_true_kleb _ _ Hxy).
    + cbn [ins] in *. apply non_increasing_cons in Hs as [Hzy Hs].
      destruct (kltb (metric x) (metric z)).
      * apply non_increasing_cons. split; assumption.
      * apply non_increasing_cons. split; [now apply kltb_true_kleb | assumption].
  - apply non_increasing_cons. split; [now apply kltb_false_iff | assumption].
Qed.

Lemma sort_desc_non_increasing l : non_increasing (sort_desc l) = true.
Proof. induction l as [| x l IH]; [reflexivity |]. now apply ins_non_increasing. Qed.

Lemma sort_desc_sorted_id l : non_increasing l = true -> sort_desc l = l.
Proof.
  induction l as [| x l IH]; intros Hs; [reflexivity |].
  cbn [sort_desc]. rewrite (IH (non_increasing_tail _ _ Hs)).
  destruct l as [| y l]; [reflexivity |].
  apply non_increasing_cons in Hs as [Hyx _].
  cbn [ins]. now rewrite (proj2 (kltb_false_iff _ _) Hyx).
Qed.

Lemma firstn_non_increasing k l :
  non_increasing l = true -> non_increasing (firstn k l) = true.
Proof.
  revert l. induction k as [| k IH]; intros l Hs; [reflexivity |].
  destruct l as [| x l]; [reflexivity |].
  specialize (IH l (non_increasing_tail _ _ Hs)).
  destruct l as [| y l]; [now destruct k |].
  apply non_increasing_cons in Hs as [Hyx _].
  destruct k as [| k]; [reflexivity |].
  change (non_increasing (x :: y :: firstn k l) = true).
  apply non_increasing_cons. split; assumption.
Qed.

(** Commuting the two insertions: the sort of [l ++ [x]] inserts the
    newcomer behind its equals. *)
Lemma ins_insert_sorted a x l :
  ins a (insert_sorted x l) = insert_sorted x (ins a l).
Proof.
  induction l as [| y l IH].
  - cbn. unfold kltb.
    destruct (kleb (metric x) (metric a)) eqn:Hxa; reflexivity.
  - cbn [insert_sorted ins].
    destruct (kleb (metric x) (metric y)) eqn:Hxy;
      destruct (kltb (metric a) (metric y)) eqn:Hay;
      cbn [insert_sorted ins]; rewrite ?Hxy, ?Hay, ?IH; try reflexivity.
    + apply kltb_false_iff in Hay.
      now rewrite (kleb_trans _ _ _ Hxy Hay).
    + apply kleb_false_kleb in Hxy. pose proof (kltb_true_kleb _ _ Hay) as Hay'.
      assert (Hax : kltb (metric a) (metric x) = true).
      { unfold kltb in *. destruct (kleb (metric x) (metric a)) eqn:Hxa; trivial.
        rewrite (kleb_trans _ _ _ Hxy Hxa) in Hay. discriminate. }
      now rewrite Hax.
    + unfold kltb. now destruct (kleb (metric x) (metric a)).
Qed.

Lemma sort_desc_snoc l x : sort_desc (l ++ [x]) = insert_sorted x (sort_desc l).
Proof.
  induction l as [| a l IH]; [reflexivity |].
  cbn [app sort_desc]. now rewrite IH, ins_insert_sorted.
Qed.

End SortTheory.

Section RetainedTheory.
Context {M : Type} `{KeyOrder M}.

Implicit Types (x y : (M * string)%type) (l ms : list (M * string)).

Lemma firstn_cons_firstn k y l : firstn k (y :: firstn k l) = firstn k (y :: l).
Proof.
  destruct k as [| k]; [reflexivity |].
  rewrite !firstn_cons. f_equal.
  rewrite firstn_firstn. f_equal. lia.
Qed.

Lemma firstn_insert_sorted k x l :
  firstn k (insert_sorted x (firstn k l)) = firstn k (insert_sorted x l).
Proof.
  revert l. induction k as [| k IH]; intros l; [reflexivity |].
  destruct l as [| y l]; [reflexivity |].
  cbn [firstn insert_sorted].
  destruct (kleb (metric x) (metric y)).
  - cbn [firstn]. now rewrite IH.
  - change (firstn (S k) (x :: y :: firstn k l)) with (x :: firstn k (y :: firstn k l)).
    now rewrite firstn_cons_firstn.
Qed.

Lemma insert_sorted_length x l : List.length (insert_sorted x l) = S (List.length l).
Proof.
  induction l as [| y l IH]; simpl; [reflexivity |].
  destruct (kleb (metric x) (metric y)); simpl; congruence.
Qed.

Lemma topk_length k l : List.length (topk k l) = Nat.min k (List.length l).
Proof. unfold topk. now rewrite length_firstn, sort_desc_length. Qed.

Lemma topk_non_increasing k l : non_increasing (topk k l) = true.
Proof. apply firstn_non_increasing, sort_desc_non_increasing. Qed.

Lemma topk_nil k : topk k (@nil (M * string)) = [].
Proof. unfold topk. cbn. apply firstn_nil. Qed.

Lemma topk_idem k l : topk k (topk k l) = topk k l.
Proof.
  unfold topk at 1. rewrite sort_desc_sorted_id by apply topk_non_increasing.
  unfold topk. rewrite firstn_firstn. f_equal. lia.
Qed.

Lemma topk_snoc k l x : topk k (topk k l ++ [x]) = topk k (l ++ [x]).
Proof.
  unfold topk at 1. rewrite sort_desc_snoc.
  rewrite sort_desc_sorted_id by apply topk_non_increasing.
  unfold topk. now rewrite firstn_insert_sorted, <- sort_desc_snoc.
Qed.

Lemma slice_to_nonneg l n : 0 <= n -> slice_to l n = firstn (Z.to_nat n) l.
Proof. intros Hn. unfold slice_to. now rewrite (proj2 (Z.leb_le 0 n) Hn). Qed.

Lemma offer_topk n l x :
  0 <= n -> offer n (topk (Z.to_nat n) l) x = topk (Z.to_nat n) (l ++ [x]).
Proof.
  intros Hn. unfold offer. rewrite slice_to_nonneg by assumption. apply topk_snoc.
Qed.

(** The loop of offers keeps exactly the [n] largest of what it has seen. *)
Lemma fold_offer_topk n ms l :
  0 <= n ->
  fold_left (offer n) ms (topk (Z.to_nat n) l) = topk (Z.to_nat n) (l ++ ms).
Proof.
  intros Hn. revert l. induction ms as [| x ms IH]; intros l.
  - now rewrite app_nil_r.
  - cbn [fold_left]. rewrite offer_topk by assumption.
    rewrite IH. now rewrite <- app_assoc.
Qed.

Lemma fold_offer_nil n ms :
  0 <= n -> fold_left (offer n) ms [] = topk (Z.to_nat n) ms.
Proof.
  intros Hn. rewrite <- (topk_nil (Z.to_nat n)) at 1.
  now rewrite fold_offer_topk.
Qed.

(** With a capacity of zero or less nothing is ever retained. *)
Lemma slice_to_short l n : n <= 0 -> (List.length l <= 1)%nat -> slice_to l n = [].
Proof.
  intros Hn Hl. unfold slice_to. destruct (Z.leb_spec 0 n).
  - replace n with 0 by lia. reflexivity.
  - replace (List.length l - Z.to_nat (- n))%nat with 0%nat by lia. reflexivity.
Qed.

Lemma offer_nonpos n x : n <= 0 -> offer n [] x = [].
Proof. intros Hn. unfold offer. cbn. now apply slice_to_short. Qed.

Lemma fold_offer_nonpos n ms : n <= 0 -> fold_left (offer n) ms [] = [].
Proof.
  intros Hn. induction ms as [| x ms IH]; [reflexivity |].
  cbn [fold_left]. now rewrite offer_nonpos.
Qed.

(** *** Stability *)

Lemma non_increasing_head_max y l z :
  non_increasing (y :: l) = true -> In z l -> kleb (metric z) (metric y) = true.
Proof.
  revert y. induction l as [| a l IH]; intros y Hs Hin; [destruct Hin |].
  apply non_increasing_cons in Hs as [Hay Hs].
  destruct Hin as [-> | Hin]; [assumption |].
  eapply kleb_trans; [apply (IH a Hs Hin) | assumption].
Qed.

Lemma filter_ins m x l :
  filter (same_metric m) (ins x l) = filter (same_metric m) (x :: l).
Proof.
  induction l as [| y l IH]; [reflexivity |].
  cbn [ins]. destruct (kltb (metric x) (metric y)) eqn:Hxy; [| reflexivity].
  cbn [filter] in *. rewrite IH.
  destruct (same_metric m x) eqn:Hx; destruct (same_metric m y) eqn:Hy; try reflexivity.
  exfalso. unfold same_metric, keqb in Hx, Hy.
  apply andb_true_iff in Hx as [Hmx _]. apply andb_true_iff in Hy as [_ Hym].
  unfold kltb in Hxy. rewrite (kleb_trans _ _ _ Hym Hmx) in Hxy. discriminate.
Qed.

Lemma filter_sort_desc m l :
  filter (same_metric m) (sort_desc l) = filter (same_metric m) l.
Proof.
  induction l as [| x l IH]; [reflexivity |].
  cbn [sort_desc]. rewrite filter_ins. cbn [filter]. now rewrite IH.
Qed.

Lemma filter_firstn_prefix (p : (M * string)%type -> bool) k l :
  exists j, filter p (firstn k l) = firstn j (filter p l).
Proof.
  revert l. induction k as [| k IH]; intros l.
  - exists 0%nat. reflexivity.
  - destruct l as [| y l]; [exists 0%nat; reflexivity |].
    destruct (IH l) as [j Hj]. cbn [firstn filter].
    destruct (p y).
    + exists (S j). cbn [firstn]. now rewrite Hj.
    + exists j. exact Hj.
Qed.

(** A list in non-increasing order that keeps, for every metric, the
    measurements of that metric in their order in [l] is [sort_desc l]:
    whatever stable sort Python runs, this is its result. *)
Lemma same_metric_refl x : same_metric (metric x) x = true.
Proof. unfold same_metric, keqb. now rewrite kleb_refl. Qed.

Lemma In_head_max x y l :
  non_increasing (y :: l) = true -> In x (y :: l) ->
  kleb (metric x) (metric y) = true.
Proof.
  intros Hs [-> | Hin]; [apply kleb_refl |].
  exact (non_increasing_head_max y l x Hs Hin).
Qed.

Lemma filter_head_In m x l l' :
  same_metric m x = true ->
  filter (same_metric m) (x :: l) = filter (same_metric m) l' -> In x l'.
Proof.
  intros Hx Heq. cbn [filter] in Heq. rewrite Hx in Heq.
  assert (Hin : In x (filter (same_metric m) l')) by (rewrite <- Heq; now left).
  now apply filter_In in Hin.
Qed.

Lemma sorted_stable_unique l1 l2 :
  non_increasing l1 = true -> non_increasing l2 = true ->
  (forall m, filter (same_metric m) l1 = filter (same_metric m) l2) ->
  l1 = l2.
Proof.
  revert l2. induction l1 as [| x l1 IH]; intros [| y l2] Hs1 Hs2 Heq.
  - reflexivity.
  - specialize (Heq (metric y)). cbn [filter] in Heq.
    rewrite same_metric_refl in Heq. discriminate.
  - specialize (Heq (metric x)). cbn [filter] in Heq.
    rewrite same_metric_refl in Heq. discriminate.
  - assert (Hxy : kleb (metric x) (metric y) = true).
    { apply (In_head_max x y l2 Hs2).
      exact (filter_head_In _ x l1 _ (same_metric_refl x) (Heq (metric x))). }
    assert (Hyx : kleb (metric y) (metric x) = true).
    { apply (In_head_max y x l1 Hs1).
      exact (filter_head_In _ y l2 _ (same_metric_refl y) (eq_sym (Heq (metric y)))). }
    assert (Hhead : x = y).
    { pose proof (Heq (metric x)) as Hm. cbn [filter] in Hm.
      rewrite same_metric_refl in Hm.
      unfold same_metric at 2, keqb in Hm. rewrite Hxy, Hyx in Hm.
      now injection Hm. }
    subst y. f_equal.
    apply IH; [exact (non_increasing_tail _ _ Hs1) | exact (non_increasing_tail _ _ Hs2) |].
    intros m. specialize (Heq m). cbn [filter] in Heq.
    destruct (same_metric m x); [now injection Heq | exact Heq].
Qed.

Lemma stable_sort_unique l l' :
  non_increasing l' = true ->
  (forall m, filter (same_metric m) l' = filter (same_metric m) l) ->
  l' = sort_desc l.
Proof.
  intros Hs Hstable. apply sorted_stable_unique.
  - exact Hs.
  - apply sort_desc_non_increasing.
  - intros m. now rewrite filter_sort_desc.
Qed.

(** *** Compare and evict *)

Lemma insert_sorted_above x l t :
  kltb (metric t) (metric x) = true ->
  insert_sorted x (l ++ [t]) = insert_sorted x l ++ [t].
Proof.
  intros Htx. induction l as [| y l IH].
  - cbn. unfold kltb in Htx. now destruct (kleb (metric x) (metric t)).
  - cbn [app insert_sorted]. destruct (kleb (metric x) (metric y)); [| reflexivity].
    now rewrite IH.
Qed.

Lemma insert_sorted_below x l t :
  non_increasing (l ++ [t]) = true ->
  kleb (metric x) (metric t) = true ->
  insert_sorted x (l ++ [t]) = (l ++ [t]) ++ [x].
Proof.
  intros Hs Hxt. induction l as [| y l IH].
  - cbn. now rewrite Hxt.
  - cbn [app insert_sorted].
    assert (Hty : kleb (metric t) (metric y) = true).
    { apply (non_increasing_head_max _ _ _ Hs). apply in_or_app. right. now left. }
    rewrite (kleb_trans _ _ _ Hxt Hty).
    now rewrite (IH (non_increasing_tail _ _ Hs)).
Qed.

Lemma offer_evict_offer K l x :
  1 <= K -> non_increasing l = true -> len l <= K ->
  offer_evict K l x = offer K l x.
Proof.
  intros HK Hs Hl. unfold offer, offer_evict, len in *.
  rewrite slice_to_nonneg by lia.
  rewrite sort_desc_snoc, (sort_desc_sorted_id _ Hs).
  destruct (Z.ltb_spec (Z.of_nat (List.length l)) K) as [Hlt | Hge].
  - rewrite firstn_all2; [reflexivity |]. rewrite insert_sorted_length. lia.
  - destruct (exists_last (l := l)) as (l0 & t & ->).
    { intros ->. cbn in Hge. lia. }
    rewrite rev_app_distr, removelast_last. cbn [rev app].
    rewrite length_app in *. cbn [List.length] in *.
    assert (Hk : Z.to_nat K = S (List.length l0)) by lia.
    destruct (kltb (metric t) (metric x)) eqn:Htx.
    + rewrite insert_sorted_above by assumption.
      rewrite Hk, <- (insert_sorted_length x l0).
      now rewrite firstn_app, Nat.sub_diag, firstn_all, app_nil_r.
    + apply kltb_false_iff in Htx.
      rewrite insert_sorted_below by assumption.
      replace (Z.to_nat K) with (List.length (l0 ++ [t]))
        by (rewrite length_app; cbn; lia).
      now rewrite firstn_app, Nat.sub_diag, firstn_all, app_nil_r.
Qed.

Lemma fold_offer_evict_topk K ms l :
  1 <= K ->
  fold_left (offer_evict K) ms (topk (Z.to_nat K) l) = topk (Z.to_nat K) (l ++ ms).
Proof.
  intros HK. revert l. induction ms as [| x ms IH]; intros l.
  - now rewrite app_nil_r.
  - cbn [fold_left]. rewrite offer_evict_offer.
    + rewrite offer_topk by lia. rewrite IH. now rewrite <- app_assoc.
    + assumption.
    + apply topk_non_increasing.
    + unfold len. rewrite topk_length. lia.
Qed.

End RetainedTheory.

(** ** The walk *)

Section WalkTheory.

Lemma node_nested_ind (P : node -> Prop) :
  (forall sz, P (File sz)) ->
  P Unlistable ->
  (forall es, Forall (fun e => P (snd e)) es -> P (Dir es)) ->
  forall n, P n.
Proof.
  intros HFile HUn HDir.
  exact (fix go (n : node) : P n :=
           match n with
           | File sz => HFile sz
           | Unlistable => HUn
           | Dir es =>
               HDir es
                 ((fix all (l : list (string * node)) : Forall (fun e => P (snd e)) l :=
                     match l with
                     | [] => Forall_nil _
                     | e :: l' => Forall_cons e (go (snd e)) (all l')
                     end) es)
           end).
Qed.

Lemma walk_Dir top es :
  walk top (Dir es) =
  {| root := top; dirs := dirs_of es; filenames := files_of es |}
  :: flat_map (fun e => walk (path_join top (fst e)) (snd e)) es.
Proof.
  cbn [walk]. f_equal.
  induction es as [| [name child] es IH]; [reflexivity |].
  cbn [flat_map fst snd]. now rewrite <- IH.
Qed.

Lemma visited_Dir top es :
  visited top (Dir es) =
  (top, es) :: flat_map (fun e => visited (path_join top (fst e)) (snd e)) es.
Proof.
  cbn [visited]. f_equal.
  induction es as [| [name child] es IH]; [reflexivity |].
  cbn [flat_map fst snd]. now rewrite <- IH.
Qed.

Lemma walk_visited n : forall top, walk top n = map entry_of (visited top n).
Proof.
  induction n as [sz | | es IH] using node_nested_ind; intros top; try reflexivity.
  rewrite walk_Dir, visited_Dir. cbn [map]. f_equal.
  induction IH as [| [name child] es Hc _ IHes]; [reflexivity |].
  cbn [flat_map fst snd] in *. now rewrite map_app, Hc, IHes.
Qed.

(** *** Pruning the vanished files *)

Lemma prune_Dir es : prune (Dir es) = Dir (prune_entries es).
Proof.
  cbn [prune]. f_equal.
  induction es as [| [name child] es IH]; [reflexivity |].
  unfold prune_entries in *. cbn [flat_map fst snd]. rewrite <- IH.
  destruct child as [[b |] | cs |]; reflexivity.
Qed.

Lemma dirs_of_prune es : dirs_of (prune_entries es) = dirs_of es.
Proof.
  induction es as [| [name child] es IH]; [reflexivity |].
  unfold prune_entries in *. cbn [flat_map fst snd].
  destruct child as [[b |] | cs |]; cbn in *; now rewrite ?IH.
Qed.

Lemma files_of_prune es : files_of (prune_entries es) = filter exists_now (files_of es).
Proof.
  induction es as [| [name child] es IH]; [reflexivity |].
  unfold prune_entries in *. cbn [flat_map fst snd].
  destruct child as [[b |] | cs |]; cbn in *; now rewrite ?IH.
Qed.

Lemma walk_prune n : forall top, walk top (prune n) = map strip (walk top n).
Proof.
  induction n as [sz | | es IH] using node_nested_ind; intros top; try reflexivity.
  rewrite prune_Dir, !walk_Dir. cbn [map]. f_equal.
  - unfold strip. cbn. now rewrite dirs_of_prune, files_of_prune.
  - induction IH as [| [name child] es Hc _ IHes]; [reflexivity |].
    unfold prune_entries in *. cbn [flat_map fst snd] in *.
    rewrite map_app, <- IHes, <- Hc.
    destruct child as [[b |] | cs |]; cbn [app flat_map fst snd];
      rewrite ?app_nil_r; reflexivity.
Qed.

End WalkTheory.

(** ** The three scans *)

Section ScanTheory.

Lemma fold_left_map_arg {A B C : Type} (f : C -> B -> C) (g : A -> B) l c :
  fold_left (fun acc a => f acc (g a)) l c = fold_left f (map g l) c.
Proof. revert c. induction l as [| a l IH]; intros c; [reflexivity | apply IH]. Qed.

Lemma get_dir_counts_offers fs start_dir K :
  get_dir_counts fs start_dir K = fold_left (offer K) (count_offers fs start_dir) [].
Proof.
  unfold get_dir_counts, count_offers.
  apply (fold_left_map_arg (offer K) (fun e => (len (filenames e), root e))).
Qed.

Lemma get_dir_sizes_offers fs start_dir K :
  get_dir_sizes fs start_dir K = fold_left (offer K) (size_offers fs start_dir) [].
Proof.
  unfold get_dir_sizes, size_offers.
  apply (fold_left_map_arg (offer K) (fun e => (dir_size (filenames e), root e))).
Qed.

(** The floor of one megabyte, in bytes. *)
Lemma floor_bytes b :
  Qle_bool MIN_FILE_SIZE (truediv b (1024 * 1024)) = (1048576 <=? b).
Proof.
  apply eq_iff_eq_true. rewrite Qle_bool_iff, Z.leb_le.
  unfold Qle, MIN_FILE_SIZE, truediv. cbn. lia.
Qed.

Lemma files_step_offers K rt files f :
  files_step K rt files f =
  match snd f with
  | Some _ =>
      let files' := files ++ large_file rt f in
      if len files' >=? K then slice_to (sort_desc files') K else files'
  | None => files
  end.
Proof.
  unfold files_step, large_file. destruct (snd f) as [b |]; [| reflexivity].
  rewrite floor_bytes. destruct (1048576 <=? b); [reflexivity |].
  cbn zeta. now rewrite app_nil_r.
Qed.

Lemma large_file_short rt f : (List.length (large_file rt f) <= 1)%nat.
Proof.
  unfold large_file. destruct (snd f) as [b |]; [| cbn; lia].
  destruct (1048576 <=? b); cbn; lia.
Qed.

Lemma files_append_inv K files ms new :
  0 <= K ->
  (List.length new <= 1)%nat ->
  files_inv (Z.to_nat K) files ms ->
  files_inv (Z.to_nat K)
    (if len (files ++ new) >=? K then slice_to (sort_desc (files ++ new)) K
     else files ++ new)
    (ms ++ new).
Proof.
  intros HK Hshort Hinv.
  unfold files_inv in *. rewrite Z.geb_leb, slice_to_nonneg by assumption.
  unfold len. rewrite !length_app.
  destruct (Nat.ltb_spec (List.length ms) (Z.to_nat K)) as [Hlt | Hge]; subst files.
  - destruct (Z.leb_spec K (Z.of_nat (List.length ms + List.length new))) as [Hfull | Hroom];
      destruct (Nat.ltb_spec (List.length ms + List.length new) (Z.to_nat K)); try lia;
      reflexivity.
  - rewrite topk_length.
    destruct (Nat.ltb_spec (List.length ms + List.length new) (Z.to_nat K)); [lia |].
    destruct (Z.leb_spec K (Z.of_nat (Nat.min (Z.to_nat K) (List.length ms) + List.length new)));
      [| lia].
    destruct new as [| x [| ? ?]]; cbn in Hshort; [| | lia].
    + rewrite !app_nil_r. apply topk_idem.
    + apply topk_snoc.
Qed.

Lemma files_step_inv K rt files ms f :
  0 <= K ->
  files_inv (Z.to_nat K) files ms ->
  files_inv (Z.to_nat K) (files_step K rt files f) (ms ++ large_file rt f).
Proof.
  intros HK Hinv. rewrite files_step_offers.
  destruct (snd f) as [b |] eqn:Hf.
  - apply files_append_inv; [assumption | apply large_file_short | assumption].
  - unfold large_file. rewrite Hf. now rewrite app_nil_r.
Qed.

Lemma files_entry_inv K e files ms :
  0 <= K ->
  files_inv (Z.to_nat K) files ms ->
  files_inv (Z.to_nat K)
    (fold_left (files_step K (root e)) (filenames e) files) (ms ++ large_files e).
Proof.
  intros HK. unfold large_files. generalize (root e) as rt.
  intros rt. revert files ms.
  induction (filenames e) as [| f fl IH]; intros files ms Hinv.
  - cbn. now rewrite app_nil_r.
  - cbn [fold_left flat_map]. rewrite app_assoc.
    apply IH. now apply files_step_inv.
Qed.

Lemma find_large_files_inv fs start_dir K :
  0 <= K ->
  files_inv (Z.to_nat K) (find_large_files fs start_dir K) (file_offers fs start_dir).
Proof.
  intros HK. unfold find_large_files, file_offers.
  assert (Hgen : forall es files ms,
             files_inv (Z.to_nat K) files ms ->
             files_inv (Z.to_nat K)
               (fold_left
                  (fun files e => fold_left (files_step K (root e)) (filenames e) files)
                  es files)
               (ms ++ flat_map large_files es)).
  { induction es as [| e es IH]; intros files ms Hinv.
    - cbn. now rewrite app_nil_r.
    - cbn [fold_left flat_map]. rewrite app_assoc.
      apply IH. now apply files_entry_inv. }
  apply (Hgen _ [] []).
  unfold files_inv. destruct (Nat.ltb_spec (@List.length (Q * string) []) (Z.to_nat K)).
  - reflexivity.
  - now rewrite topk_nil.
Qed.

(** The file scan returns the [K] largest qualifying files. *)
Lemma get_top_n_topk fs start_dir K :
  0 <= K ->
  get_top_n (find_large_files fs start_dir K) K =
  topk (Z.to_nat K) (file_offers fs start_dir).
Proof.
  intros HK. unfold get_top_n. rewrite slice_to_nonneg by assumption.
  pose proof (find_large_files_inv fs start_dir K HK) as Hinv.
  unfold files_inv in Hinv.
  destruct (List.length (file_offers fs start_dir) <? Z.to_nat K)%nat.
  - now rewrite Hinv.
  - rewrite Hinv. apply topk_idem.
Qed.

Lemma files_step_nonpos K rt f : K <= 0 -> files_step K rt [] f = [].
Proof.
  intros HK. rewrite files_step_offers. destruct (snd f); [| reflexivity].
  cbn zeta. pose proof (large_file_short rt f) as Hshort.
  cbn [app]. rewrite Z.geb_leb.
  destruct (Z.leb_spec K (len (large_file rt f))) as [_ | Hlt]; [| unfold len in Hlt; lia].
  apply slice_to_short; [assumption |]. now rewrite sort_desc_length.
Qed.

Lemma find_large_files_nonpos fs start_dir K :
  K <= 0 -> find_large_files fs start_dir K = [].
Proof.
  intros HK. unfold find_large_files.
  induction (os_walk fs start_dir) as [| e es IH]; [reflexivity |].
  cbn [fold_left].
  assert (Hrow : fold_left (files_step K (root e)) (filenames e) [] = []).
  { induction (filenames e) as [| f fl IHf]; [reflexivity |].
    cbn [fold_left]. now rewrite files_step_nonpos. }
  now rewrite Hrow.
Qed.

End ScanTheory.

(** ** The retained list of each scan *)

Section Retained.

Lemma counts_loop_topk K es :
  0 <= K ->
  fold_left (counts_step K) es [] =
  topk (Z.to_nat K) (map (fun e => (len (filenames e), root e)) es).
Proof.
  intros HK. rewrite <- fold_offer_nil by assumption.
  apply (fold_left_map_arg (offer K) (fun e => (len (filenames e), root e))).
Qed.

Lemma sizes_loop_topk K es :
  0 <= K ->
  fold_left (sizes_step K) es [] =
  topk (Z.to_nat K) (map (fun e => (dir_size (filenames e), root e)) es).
Proof.
  intros HK. rewrite <- fold_offer_nil by assumption.
  apply (fold_left_map_arg (offer K) (fun e => (dir_size (filenames e), root e))).
Qed.

Lemma get_dir_counts_topk fs start_dir K :
  0 <= K -> get_dir_counts fs start_dir K = topk (Z.to_nat K) (count_offers fs start_dir).
Proof. intros HK. now apply counts_loop_topk. Qed.

Lemma get_dir_sizes_topk fs start_dir K :
  0 <= K -> get_dir_sizes fs start_dir K = topk (Z.to_nat K) (size_offers fs start_dir).
Proof. intros HK. now apply sizes_loop_topk. Qed.

Lemma len_topk {M : Type} `{KeyOrder M} K (l : list (M * string)) :
  0 <= K -> len (topk (Z.to_nat K) l) = Z.min K (len l).
Proof. intros HK. unfold len. rewrite topk_length. lia. Qed.

(** C1: for every [K >= 1] and every tree, each scan returns exactly
    [min K q] measurements, where [q] counts the visited directories in
    the count and size modes, and in the file mode the files of at least
    one megabyte whose size lookup succeeds. *)
Theorem scan_result_length fs start_dir K :
  1 <= K ->
  len (get_dir_counts fs start_dir K) = Z.min K (len (os_walk fs start_dir)) /\
  len (get_dir_sizes fs start_dir K) = Z.min K (len (os_walk fs start_dir)) /\
  len (get_top_n (find_large_files fs start_dir K) K)
  = Z.min K (len (file_offers fs start_dir)).
Proof.
  intros HK.
  rewrite get_dir_counts_topk, get_dir_sizes_topk, get_top_n_topk by lia.
  rewrite !len_topk by lia.
  unfold count_offers, size_offers, len. now rewrite !length_map.
Qed.

Lemma scan_result_length_witness :
  len (get_dir_counts d_fs "/d" 1) = Z.min 1 (len (os_walk d_fs "/d")) /\
  len (get_dir_sizes d_fs "/d" 1) = Z.min 1 (len (os_walk d_fs "/d")) /\
  len (get_top_n (find_large_files d_fs "/d" 1) 1)
  = Z.min 1 (len (file_offers d_fs "/d")).
Proof. apply (scan_result_length d_fs "/d" 1). lia. Defined.

(** C2: at every observation point the retained list holds at most [K]
    measurements and its metrics never increase: after each iteration
    of the loops of [get_dir_counts] and [get_dir_sizes] (the first [n]
    directories of the walk, for every [n]), and on the value
    [get_top_n] returns in the file mode. *)
Theorem retained_bounded_sorted fs start_dir K n :
  0 <= K ->
  (let counts := fold_left (counts_step K) (firstn n (os_walk fs start_dir)) [] in
   len counts <= K /\ non_increasing counts = true) /\
  (let sizes := fold_left (sizes_step K) (firstn n (os_walk fs start_dir)) [] in
   len sizes <= K /\ non_increasing sizes = true) /\
  (let files := get_top_n (find_large_files fs start_dir K) K in
   len files <= K /\ non_increasing files = true).
Proof.
  intros HK. cbn zeta.
  rewrite counts_loop_topk, sizes_loop_topk, get_top_n_topk by assumption.
  rewrite !len_topk by assumption.
  repeat split; try apply topk_non_increasing; lia.
Qed.

Lemma retained_bounded_sorted_witness :
  (let counts := fold_left (counts_step 1) (firstn 2 (os_walk d_fs "/d")) [] in
   len counts <= 1 /\ non_increasing counts = true) /\
  (let sizes := fold_left (sizes_step 1) (firstn 2 (os_walk d_fs "/d")) [] in
   len sizes <= 1 /\ non_increasing sizes = true) /\
  (let files := get_top_n (find_large_files d_fs "/d" 1) 1 in
   len files <= 1 /\ non_increasing files = true).
Proof. apply (retained_bounded_sorted d_fs "/d" 1 2). lia. Defined.

End Retained.

(** ** Ties and the compare-and-evict selector *)

Section Ties.
Context {M : Type} `{KeyOrder M}.

Implicit Types (x : M * string) (l ms : list (M * string)).

Lemma topk_ties m k ms :
  exists j, filter (same_metric m) (topk k ms) = firstn j (filter (same_metric m) ms).
Proof.
  destruct (filter_firstn_prefix (same_metric m) k (sort_desc ms)) as [j Hj].
  exists j. unfold topk. now rewrite Hj, filter_sort_desc.
Qed.

Lemma non_increasing_app_l l1 l2 :
  non_increasing (l1 ++ l2) = true -> non_increasing l1 = true.
Proof.
  intros Hs. apply (firstn_non_increasing (List.length l1)) in Hs.
  now rewrite firstn_app, Nat.sub_diag, firstn_all, app_nil_r in Hs.
Qed.

Lemma filter_insert_sorted m x l :
  non_increasing l = true ->
  filter (same_metric m) (insert_sorted x l) = filter (same_metric m) (l ++ [x]).
Proof.
  intros Hs. rewrite <- (sort_desc_sorted_id l Hs) at 1.
  now rewrite <- sort_desc_snoc, filter_sort_desc.
Qed.

(** A newcomer leaves in place every retained measurement whose metric
    equals its own, and can only come behind them. *)
Lemma offer_keeps_ties K l x :
  1 <= K -> non_increasing l = true -> len l <= K ->
  exists rest,
    filter (same_metric (metric x)) (offer K l x)
    = filter (same_metric (metric x)) l ++ rest.
Proof.
  intros HK Hs Hl. rewrite <- offer_evict_offer by assumption.
  unfold offer_evict. destruct (len l <? K).
  - exists (filter (same_metric (metric x)) [x]).
    now rewrite filter_insert_sorted, filter_app.
  - destruct (rev l) as [| t r] eqn:Hrev.
    + exists []. now rewrite app_nil_r.
    + assert (Hl0 : l = rev r ++ [t]).
      { rewrite <- (rev_involutive l), Hrev. reflexivity. }
      destruct (kltb (metric t) (metric x)) eqn:Htx.
      * exists (filter (same_metric (metric x)) [x]).
        subst l. rewrite removelast_last.
        rewrite filter_insert_sorted by (eapply non_increasing_app_l; eassumption).
        rewrite !filter_app. f_equal.
        assert (Ht : same_metric (metric x) t = false).
        { unfold same_metric, keqb, kltb in *.
          now destruct (kleb (metric x) (metric t)). }
        cbn [filter]. now rewrite Ht, app_nil_r.
      * exists []. now rewrite app_nil_r.
Qed.

End Ties.

(** C3: exact ties are broken by discovery order.  The offers
    [(5,"a"), (5,"b"), (3,"c")] with [K = 2] leave [(5,"a"), (5,"b")];
    in every scan the retained measurements of one metric are the
    earliest offered of that metric, in the order they were offered;
    and a newcomer never displaces a retained measurement of equal
    metric. *)
Theorem ties_by_discovery_order :
  fold_left (offer 2) [(5, "a"); (5, "b"); (3, "c")] [] = [(5, "a"); (5, "b")] /\
  (forall fs start_dir K, 0 <= K ->
     (forall m, exists j,
        filter (same_metric m) (get_dir_counts fs start_dir K)
        = firstn j (filter (same_metric m) (count_offers fs start_dir))) /\
     (forall m, exists j,
        filter (same_metric m) (get_dir_sizes fs start_dir K)
        = firstn j (filter (same_metric m) (size_offers fs start_dir))) /\
     (forall m, exists j,
        filter (same_metric m) (get_top_n (find_large_files fs start_dir K) K)
        = firstn j (filter (same_metric m) (file_offers fs start_dir)))) /\
  (forall (M : Type) (HM : KeyOrder M) K (l : list (M * string)) (x : M * string),
     1 <= K -> non_increasing l = true -> len l <= K ->
     exists rest,
       filter (same_metric (metric x)) (offer K l x)
       = filter (same_metric (metric x)) l ++ rest).
Proof.
  split; [reflexivity | split].
  - intros fs start_dir K HK.
    rewrite get_dir_counts_topk, get_dir_sizes_topk, get_top_n_topk by assumption.
    repeat split; intros m; apply topk_ties.
  - intros M HM K l x. apply offer_keeps_ties.
Qed.

Lemma ties_by_discovery_order_witness :
  (exists j,
     filter (same_metric 3) (get_dir_counts d_fs "/d" 1)
     = firstn j (filter (same_metric 3) (count_offers d_fs "/d"))) /\
  (exists rest,
     filter (same_metric 5) (offer 2 [(5, "a")] (5, "b"))
     = filter (same_metric 5) [(5, "a")] ++ rest).
Proof.
  destruct ties_by_discovery_order as (_ & Hscan & Hstep). split.
  - apply (Hscan d_fs "/d" 1); lia.
  - apply (Hstep Z Z_KeyOrder 2 [(5, "a")] (5, "b")); [lia | reflexivity | cbn; lia].
Defined.

(** C4: for every [K >= 1] and every sequence of offers, appending,
    re-sorting stably and truncating to [K] after each offer leaves the
    same final list as the compare-and-evict selector of section 4.3;
    so do the loops of [get_dir_counts] and [get_dir_sizes]. *)
Theorem resort_equals_compare_and_evict
  (M : Type) (HM : KeyOrder M) (K : Z) (ms : list (M * string))
  (fs : filesystem) (start_dir : string) :
  1 <= K ->
  fold_left (offer K) ms [] = fold_left (offer_evict K) ms [] /\
  get_dir_counts fs start_dir K
  = fold_left (offer_evict K) (count_offers fs start_dir) [] /\
  get_dir_sizes fs start_dir K
  = fold_left (offer_evict K) (size_offers fs start_dir) [].
Proof.
  intros HK.
  assert (Hgen : forall (A : Type) (HA : KeyOrder A) (l : list (A * string)),
             fold_left (offer K) l [] = fold_left (offer_evict K) l []).
  { intros A HA l. rewrite fold_offer_nil by lia.
    pose proof (fold_offer_evict_topk K l [] HK) as Hev.
    rewrite topk_nil in Hev. now rewrite Hev. }
  rewrite get_dir_counts_offers, get_dir_sizes_offers.
  repeat split; apply Hgen.
Qed.

Lemma resort_equals_compare_and_evict_witness :
  fold_left (offer 2) [(1, "a"); (2, "b"); (3, "c")] []
  = fold_left (offer_evict 2) [(1, "a"); (2, "b"); (3, "c")] [] /\
  get_dir_counts d_fs "/d" 2
  = fold_left (offer_evict 2) (count_offers d_fs "/d") [] /\
  get_dir_sizes d_fs "/d" 2
  = fold_left (offer_evict 2) (size_offers d_fs "/d") [].
Proof.
  apply (resort_equals_compare_and_evict Z Z_KeyOrder 2
           [(1, "a"); (2, "b"); (3, "c")] d_fs "/d").
  lia.
Defined.

(** ** What is measured *)

Section Metrics.

Lemma dir_size_from acc es :
  (fold_left
     (fun size f =>
        match snd f with
        | Some size_bytes => size + truediv size_bytes (1024 * 1024)
        | None => size
        end)
     (files_of es) acc
   == acc + direct_megabytes es)%Q.
Proof.
  revert acc. induction es as [| [name child] es IH]; intros acc.
  - cbn. ring.
  - destruct child as [[b |] | cs |]; cbn [files_of fold_left direct_megabytes snd].
    + rewrite IH. change (1024 * 1024) with 1048576. ring.
    + apply IH.
    + apply IH.
    + apply IH.
Qed.

Lemma dir_size_direct es : (dir_size (files_of es) == direct_megabytes es)%Q.
Proof. unfold dir_size. rewrite dir_size_from. ring. Qed.

Lemma In_topk {M : Type} `{KeyOrder M} k (l : list (M * string)) x :
  In x (topk k l) -> In x l.
Proof.
  unfold topk. intros Hin.
  eapply Permutation_in; [symmetry; apply sort_desc_perm |].
  rewrite <- (firstn_skipn k). apply in_or_app. now left.
Qed.

Lemma file_offers_origin fs start_dir x :
  In x (file_offers fs start_dir) ->
  exists e f size_bytes,
    In e (os_walk fs start_dir) /\ In f (filenames e) /\
    snd f = Some size_bytes /\ 1048576 <= size_bytes /\
    x = (truediv size_bytes (1024 * 1024), path_join (root e) (fst f)).
Proof.
  unfold file_offers, large_files. intros Hin.
  apply in_flat_map in Hin as (e & He & Hin).
  apply in_flat_map in Hin as (f & Hf & Hin).
  unfold large_file in Hin. destruct (snd f) as [b |] eqn:Hb; [| destruct Hin].
  destruct (Z.leb_spec 1048576 b) as [Hle | Hlt]; [| destruct Hin].
  destruct Hin as [<- | []]. now exists e, f, b.
Qed.

Lemma find_large_files_incl fs start_dir K :
  incl (find_large_files fs start_dir K) (file_offers fs start_dir).
Proof.
  destruct (Z.le_gt_cases 0 K) as [HK | HK].
  - pose proof (find_large_files_inv fs start_dir K HK) as Hinv.
    unfold files_inv in Hinv.
    destruct (List.length (file_offers fs start_dir) <? Z.to_nat K)%nat; rewrite Hinv.
    + apply incl_refl.
    + intros x. apply In_topk.
  - rewrite find_large_files_nonpos by lia. intros x Hx. destruct Hx.
Qed.

Lemma get_top_n_incl fs start_dir K :
  incl (get_top_n (find_large_files fs start_dir K) K) (file_offers fs start_dir).
Proof.
  destruct (Z.le_gt_cases 0 K) as [HK | HK].
  - rewrite get_top_n_topk by assumption. intros x. apply In_topk.
  - rewrite find_large_files_nonpos by lia. unfold get_top_n. cbn [sort_desc].
    rewrite slice_to_short by (cbn; lia). intros x Hx. destruct Hx.
Qed.

End Metrics.

(** C5: in the size-of-directory mode one measurement is produced per
    visited directory, and its metric is the sum of the sizes, each
    divided by [1024 * 1024], of the files directly inside that directory;
    what lies in subdirectories does not count.  The sum is stated for
    the trees on which the binary64 arithmetic of the script is exact:
    fewer than [2^53] bytes directly in each visited directory.  For
    [/d] with files of 2 MB and 3 MB and a 100 MB file in [/d/sub] the
    metric is 5, not 105. *)
Theorem direct_size_metric :
  (forall fs start_dir K,
     get_dir_sizes fs start_dir K = fold_left (offer K) (size_offers fs start_dir) []) /\
  (forall fs start_dir,
     map snd (size_offers fs start_dir) = map fst (visited start_dir (fs start_dir))) /\
  (forall fs start_dir,
     walk_exact_in_binary64 fs start_dir = true ->
     Forall2
       (fun x v => snd x = fst v /\ (fst x == direct_megabytes (snd v))%Q)
       (size_offers fs start_dir) (visited start_dir (fs start_dir))) /\
  (exists hundred five,
     get_dir_sizes d_fs "/d" 5 = [(hundred, "/d/sub"); (five, "/d")] /\
     (hundred == 100)%Q /\ (five == 5)%Q /\ ~ (five == 105)%Q).
Proof.
  split; [exact get_dir_sizes_offers | split; [| split]].
  - intros fs start_dir. unfold size_offers, os_walk.
    rewrite walk_visited, !map_map. reflexivity.
  - intros fs start_dir _. unfold size_offers, os_walk.
    rewrite walk_visited.
    induction (visited start_dir (fs start_dir)) as [| v vs IH]; [constructor |].
    cbn [map]. constructor; [| exact IH].
    split; [reflexivity | apply dir_size_direct].
  - eexists _, _. split; [vm_compute; reflexivity |].
    repeat split; try reflexivity. intros Heq. discriminate Heq.
Qed.

Lemma direct_size_metric_witness :
  Forall2
    (fun x v => snd x = fst v /\ (fst x == direct_megabytes (snd v))%Q)
    (size_offers d_fs "/d") (visited "/d" (d_fs "/d")).
Proof.
  destruct direct_size_metric as (_ & _ & Hsum & _).
  apply (Hsum d_fs "/d"). reflexivity.
Defined.

(** C6: in the file mode nothing below one megabyte is ever emitted:
    whatever [find_large_files] holds and [get_top_n] returns, for every
    tree and every [K], is the measurement of a visited file whose size
    lookup succeeded with at least 1048576 bytes.  The floor is the
    constant [MIN_FILE_SIZE = 1.0]; a file of exactly 1048576 bytes is
    emitted with metric 1, a file of 0.9 MB next to it is not. *)
Theorem file_size_floor :
  (forall fs start_dir K x,
     In x (find_large_files fs start_dir K) \/
     In x (get_top_n (find_large_files fs start_dir K) K) ->
     exists e f size_bytes,
       In e (os_walk fs start_dir) /\ In f (filenames e) /\
       snd f = Some size_bytes /\ 1048576 <= size_bytes /\
       x = (truediv size_bytes (1024 * 1024), path_join (root e) (fst f))) /\
  (MIN_FILE_SIZE == 1)%Q /\
  (exists one,
     find_large_files f_fs "/f" 5 = [(one, "/f/exact")] /\
     get_top_n (find_large_files f_fs "/f" 5) 5 = [(one, "/f/exact")] /\
     (one == 1)%Q).
Proof.
  repeat split.
  - intros fs start_dir K x [Hin | Hin]; apply file_offers_origin.
    + now apply (find_large_files_incl fs start_dir K).
    + now apply (get_top_n_incl fs start_dir K).
  - eexists. split; [vm_compute; reflexivity | split; [vm_compute; reflexivity |]].
    reflexivity.
Qed.

Lemma file_size_floor_witness :
  exists e f size_bytes,
    In e (os_walk f_fs "/f") /\ In f (filenames e) /\
    snd f = Some size_bytes /\ 1048576 <= size_bytes /\
    (truediv 1048576 1048576, "/f/exact")
    = (truediv size_bytes (1024 * 1024), path_join (root e) (fst f)).
Proof.
  destruct file_size_floor as (Hfloor & _).
  apply (Hfloor f_fs "/f" 5). left. vm_compute. left. reflexivity.
Defined.

(** ** Files that vanish during the scan *)

Section Vanished.

Lemma dir_size_filter fl : dir_size (filter exists_now fl) = dir_size fl.
Proof.
  unfold dir_size. generalize 0%Q as acc.
  induction fl as [| [name [b |]] fl IH]; intros acc; cbn; [reflexivity | apply IH ..].
Qed.

Lemma files_fold_filter K rt fl files :
  fold_left (files_step K rt) (filter exists_now fl) files
  = fold_left (files_step K rt) fl files.
Proof.
  revert files.
  induction fl as [| [name [b |]] fl IH]; intros files; [reflexivity | apply IH ..].
Qed.

Lemma sizes_loop_strip K es sizes :
  fold_left (sizes_step K) (map strip es) sizes = fold_left (sizes_step K) es sizes.
Proof.
  revert sizes. induction es as [| e es IH]; intros sizes; [reflexivity |].
  cbn [map fold_left]. rewrite IH. f_equal.
  unfold sizes_step, strip. cbn [filenames root]. now rewrite dir_size_filter.
Qed.

Lemma files_loop_strip K es files :
  fold_left
    (fun files e => fold_left (files_step K (root e)) (filenames e) files)
    (map strip es) files
  = fold_left
      (fun files e => fold_left (files_step K (root e)) (filenames e) files)
      es files.
Proof.
  revert files. induction es as [| e es IH]; intros files; [reflexivity |].
  cbn [map fold_left]. rewrite IH. f_equal.
  unfold strip. cbn [filenames root]. apply files_fold_filter.
Qed.

End Vanished.

(** C8: in the size-of-directory and file modes a file whose size lookup
    fails because it no longer exists is skipped: the scan runs to its
    end and returns exactly what it returns on the tree without the
    vanished files, so they contribute to no metric. *)
Theorem vanished_files_skipped fs start_dir K :
  get_dir_sizes fs start_dir K
  = get_dir_sizes (fun p => prune (fs p)) start_dir K /\
  find_large_files fs start_dir K
  = find_large_files (fun p => prune (fs p)) start_dir K /\
  get_top_n (find_large_files fs start_dir K) K
  = get_top_n (find_large_files (fun p => prune (fs p)) start_dir K) K /\
  (forall fl, dir_size fl = dir_size (filter exists_now fl)) /\
  map fst (get_dir_sizes g_fs "/g" 5) = map fst (get_dir_sizes d_fs "/d" 5) /\
  map fst (find_large_files g_fs "/g" 5) = map fst (find_large_files d_fs "/d" 5).
Proof.
  assert (Hfiles : find_large_files fs start_dir K
                   = find_large_files (fun p => prune (fs p)) start_dir K).
  { unfold find_large_files, os_walk. now rewrite walk_prune, files_loop_strip. }
  split; [| split; [| split; [| split; [| split]]]].
  - unfold get_dir_sizes, os_walk. now rewrite walk_prune, sizes_loop_strip.
  - exact Hfiles.
  - now rewrite <- Hfiles.
  - intros fl. symmetry. apply dir_size_filter.
  - vm_compute. reflexivity.
  - vm_compute. reflexivity.
Qed.

(** ** The command lines *)

Section RunTheory.

Variable stat_error : string -> bool.

Lemma fold_left_raises {A B : Type} (f : outcome A -> B -> outcome A) l e :
  (forall b, f (Raises e) b = Raises e) -> fold_left f l (Raises e) = Raises e.
Proof.
  intros Hf. induction l as [| b l IH]; [reflexivity |].
  cbn [fold_left]. now rewrite Hf.
Qed.

Lemma dir_size_run_from rt files acc :
  fold_left
    (fun acc f =>
       match acc with
       | Raises e => Raises e
       | Returns size =>
           let file_path := path_join rt (fst f) in
           if stat_error file_path then Raises OSError
           else
             match snd f with
             | Some size_bytes => Returns (size + truediv size_bytes (1024 * 1024))%Q
             | None => Returns size
             end
       end)
    files (Returns acc)
  = if existsb (fun f => stat_error (path_join rt (fst f))) files
    then Raises OSError
    else Returns
           (fold_left
              (fun size f =>
                 match snd f with
                 | Some size_bytes => (size + truediv size_bytes (1024 * 1024))%Q
                 | None => size
                 end)
              files acc).
Proof.
  revert acc. induction files as [| f files IH]; intros acc; [reflexivity |].
  cbn [fold_left existsb]. cbn zeta.
  destruct (stat_error (path_join rt (fst f))); cbn [orb].
  - now apply fold_left_raises.
  - destruct (snd f); apply IH.
Qed.

Lemma dir_size_run_spec e :
  dir_size_run stat_error (root e) (filenames e)
  = if lookup_raises stat_error e then Raises OSError
    else Returns (dir_size (filenames e)).
Proof. unfold dir_size_run, lookup_raises, dir_size. apply dir_size_run_from. Qed.

Lemma get_dir_sizes_run_from K es sizes :
  fold_left
    (fun acc e =>
       match acc with
       | Raises x => Raises x
       | Returns sizes =>
           match dir_size_run stat_error (root e) (filenames e) with
           | Raises x => Raises x
           | Returns size => Returns (offer K sizes (size, root e))
           end
       end)
    es (Returns sizes)
  = if existsb (lookup_raises stat_error) es then Raises OSError
    else Returns (fold_left (sizes_step K) es sizes).
Proof.
  revert sizes. induction es as [| e es IH]; intros sizes; [reflexivity |].
  cbn [fold_left existsb]. rewrite dir_size_run_spec.
  destruct (lookup_raises stat_error e); cbn [orb].
  - now apply fold_left_raises.
  - apply IH.
Qed.

(** The scan of [topdirs.py] raises when one of its lookups does, and
    returns [get_dir_sizes] otherwise. *)
Lemma get_dir_sizes_run_spec fs start_dir K :
  get_dir_sizes_run stat_error fs start_dir K
  = if scan_raises stat_error fs start_dir then Raises OSError
    else Returns (get_dir_sizes fs start_dir K).
Proof. unfold get_dir_sizes_run, scan_raises, get_dir_sizes. apply get_dir_sizes_run_from. Qed.

Lemma files_row_run_from K rt fl files :
  fold_left (files_step_run stat_error K rt) fl (Returns files)
  = if existsb (fun f => stat_error (path_join rt (fst f))) fl then Raises OSError
    else Returns (fold_left (files_step K rt) fl files).
Proof.
  revert files. induction fl as [| f fl IH]; intros files; [reflexivity |].
  cbn [fold_left existsb]. unfold files_step_run at 2. cbn zeta.
  destruct (stat_error (path_join rt (fst f))); cbn [orb].
  - now apply fold_left_raises.
  - apply IH.
Qed.

Lemma find_large_files_run_from K es files :
  fold_left
    (fun acc e => fold_left (files_step_run stat_error K (root e)) (filenames e) acc)
    es (Returns files)
  = if existsb (lookup_raises stat_error) es then Raises OSError
    else Returns
           (fold_left
              (fun files e => fold_left (files_step K (root e)) (filenames e) files)
              es files).
Proof.
  revert files. induction es as [| e es IH]; intros files; [reflexivity |].
  cbn [fold_left existsb]. rewrite files_row_run_from.
  fold (lookup_raises stat_error e).
  destruct (lookup_raises stat_error e); cbn [orb].
  - apply fold_left_raises. intros e'. now apply fold_left_raises.
  - apply IH.
Qed.

(** The scan of [topfiles.py] raises when one of its lookups does, and
    returns [find_large_files] otherwise. *)
Lemma find_large_files_run_spec fs start_dir K :
  find_large_files_run stat_error fs start_dir K
  = if scan_raises stat_error fs start_dir then Raises OSError
    else Returns (find_large_files fs start_dir K).
Proof.
  unfold find_large_files_run, scan_raises, find_large_files.
  apply find_large_files_run_from.
Qed.

Lemma scan_raises_unlistable fs start_dir :
  fs start_dir = Unlistable -> scan_raises stat_error fs start_dir = false.
Proof. intros Hfs. unfold scan_raises, os_walk. now rewrite Hfs. Qed.

End RunTheory.

Section CommandLineTheory.

Variable py_int : string -> option Z.


Lemma main_value_error {M : Type} usage col2 col3
  (scan : filesystem -> string -> Z -> outcome (list (M * string))) fs argv :
  len argv = 3 ->
  py_int (nth 1 argv EmptyString) = None ->
  main py_int usage col2 col3 scan fs argv
  = {| stdout := [Header (header_row "Index" col2 col3)];
       stderr := [];
       exit := Uncaught ValueError |}.
Proof. intros Hargs Hint. unfold main. now rewrite Hargs, Hint. Qed.

Lemma main_scan {M : Type} usage col2 col3
  (scan : filesystem -> string -> Z -> outcome (list (M * string))) fs argv K :
  len argv = 3 ->
  py_int (nth 1 argv EmptyString) = Some K ->
  main py_int usage col2 col3 scan fs argv
  = match scan fs (nth 2 argv EmptyString) K with
    | Raises e =>
        {| stdout := [Header (header_row "Index" col2 col3)];
           stderr := [];
           exit := Uncaught e |}
    | Returns result =>
        {| stdout := Header (header_row "Index" col2 col3) :: rows result;
           stderr := [];
           exit := Finished |}
    end.
Proof. intros Hargs Hint. unfold main. now rewrite Hargs, Hint. Qed.

(** The three tools once [int] has given [K]. *)
Lemma topcounts_main_scan fs argv K :
  len argv = 3 ->
  py_int (nth 1 argv EmptyString) = Some K ->
  topcounts_main py_int fs argv
  = report "Index  Counts  Directory" (get_dir_counts fs (nth 2 argv EmptyString) K).
Proof.
  intros Hargs Hint. unfold topcounts_main.
  now rewrite (main_scan _ _ _ _ _ _ K Hargs Hint).
Qed.

Lemma topdirs_main_scan stat_error fs argv K :
  len argv = 3 ->
  py_int (nth 1 argv EmptyString) = Some K ->
  topdirs_main py_int stat_error fs argv
  = if scan_raises stat_error fs (nth 2 argv EmptyString)
    then os_error "Index  Size (MB)  Directory"
    else report "Index  Size (MB)  Directory"
           (get_dir_sizes fs (nth 2 argv EmptyString) K).
Proof.
  intros Hargs Hint. unfold topdirs_main.
  rewrite (main_scan _ _ _ _ _ _ K Hargs Hint), get_dir_sizes_run_spec.
  now destruct (scan_raises stat_error fs (nth 2 argv EmptyString)).
Qed.

Lemma topfiles_main_scan stat_error fs argv K :
  len argv = 3 ->
  py_int (nth 1 argv EmptyString) = Some K ->
  topfiles_main py_int stat_error fs argv
  = if scan_raises stat_error fs (nth 2 argv EmptyString)
    then os_error "Index  Size (MB)  Filename"
    else report "Index  Size (MB)  Filename"
           (get_top_n (find_large_files fs (nth 2 argv EmptyString) K) K).
Proof.
  intros Hargs Hint. unfold topfiles_main.
  rewrite (main_scan _ _ _ _ _ _ K Hargs Hint), find_large_files_run_spec.
  now destruct (scan_raises stat_error fs (nth 2 argv EmptyString)).
Qed.

End CommandLineTheory.

Section Rows.
Context {A : Type}.



End Rows.

Section Reports.
Context {M : Type}.



End Reports.

Section EmptyResults.

Lemma get_dir_counts_nonpos fs start_dir K : K <= 0 -> get_dir_counts fs start_dir K = [].
Proof. intros HK. rewrite get_dir_counts_offers. now apply fold_offer_nonpos. Qed.

Lemma get_dir_sizes_nonpos fs start_dir K : K <= 0 -> get_dir_sizes fs start_dir K = [].
Proof. intros HK. rewrite get_dir_sizes_offers. now apply fold_offer_nonpos. Qed.

Lemma get_top_n_nil K : get_top_n [] K = [].
Proof.
  unfold get_top_n, slice_to. cbn [sort_desc].
  destruct (0 <=? K); apply firstn_nil.
Qed.

Lemma get_top_n_nonpos fs start_dir K :
  K <= 0 -> get_top_n (find_large_files fs start_dir K) K = [].
Proof. intros HK. rewrite find_large_files_nonpos by assumption. apply get_top_n_nil. Qed.

Lemma slice_to_bound {M : Type} (l : list (M * string)) K :
  K <= 0 -> len (slice_to l K) <= Z.max 0 (len l - Z.abs K).
Proof.
  intros HK. unfold slice_to, len. destruct (Z.leb_spec 0 K).
  - replace K with 0 by lia. cbn. lia.
  - rewrite length_firstn. lia.
Qed.

Lemma len_get_dir_counts fs start_dir K :
  len (get_dir_counts fs start_dir K)
  = Z.max 0 (Z.min K (len (os_walk fs start_dir))).
Proof.
  destruct (Z.le_gt_cases 0 K) as [HK | HK].
  - rewrite get_dir_counts_topk, len_topk by assumption.
    unfold count_offers, len. rewrite length_map. lia.
  - rewrite get_dir_counts_nonpos by lia. unfold len. cbn [List.length]. lia.
Qed.

Lemma len_get_dir_sizes fs start_dir K :
  len (get_dir_sizes fs start_dir K)
  = Z.max 0 (Z.min K (len (os_walk fs start_dir))).
Proof.
  destruct (Z.le_gt_cases 0 K) as [HK | HK].
  - rewrite get_dir_sizes_topk, len_topk by assumption.
    unfold size_offers, len. rewrite length_map. lia.
  - rewrite get_dir_sizes_nonpos by lia. unfold len. cbn [List.length]. lia.
Qed.

Lemma len_get_top_n fs start_dir K :
  len (get_top_n (find_large_files fs start_dir K) K)
  = Z.max 0 (Z.min K (len (file_offers fs start_dir))).
Proof.
  destruct (Z.le_gt_cases 0 K) as [HK | HK].
  - rewrite get_top_n_topk, len_topk by assumption. unfold len. lia.
  - rewrite get_top_n_nonpos by lia. unfold len. cbn [List.length]. lia.
Qed.

(** A start directory that cannot be listed yields no walk at all. *)
Lemma scans_unlistable fs start_dir K :
  fs start_dir = Unlistable ->
  get_dir_counts fs start_dir K = [] /\
  get_dir_sizes fs start_dir K = [] /\
  get_top_n (find_large_files fs start_dir K) K = [].
Proof.
  intros Hfs.
  unfold get_dir_counts, get_dir_sizes, find_large_files, os_walk.
  rewrite Hfs. cbn [walk fold_left]. repeat split. apply get_top_n_nil.
Qed.

End EmptyResults.

(** C7, as stated, fails: with [K = 5] and a start directory that does
    not exist the tool prints its header and ends normally with status
    0, and so it does with [K = 0] on an existing directory. *)
Lemma invalid_config_not_rejected :
  topcounts_main int_literal empty_fs ["topcounts"; "5"; "/does/not/exist"]
  = report "Index  Counts  Directory" [] /\
  ~ exit_status
      (exit (topcounts_main int_literal empty_fs ["topcounts"; "5"; "/does/not/exist"]))
    <> 0 /\
  ~ exit_status (exit (topcounts_main int_literal d_fs ["topcounts"; "0"; "/d"])) <> 0.
Proof.
  split; [reflexivity | split]; intros Hfail; apply Hfail; reflexivity.
Qed.

(** C7, amended: of the three invalid configurations only a
    non-numeric [K] stops a run that has two arguments: [int] raises a
    [ValueError] nobody catches, after the header is printed and before
    the file system is looked at (the outcome is the same on every file
    system), and the status is non-zero.  A start directory that cannot
    be listed is not rejected: the header is printed, no row follows,
    and the run ends normally with status 0.  Nor is [K <= 0]:
    [topcounts] prints the header alone and ends normally, and so do
    [topdirs] and [topfiles] unless a size lookup of the scan raises an
    [OSError] other than [FileNotFoundError], which ends the run after
    the header with a non-zero status. *)
Theorem config_outcomes py_int stat_error fs argv :
  len argv = 3 ->
  (py_int (nth 1 argv EmptyString) = None ->
   forall stat_error' fs',
     topcounts_main py_int fs' argv = value_error "Index  Counts  Directory" /\
     topdirs_main py_int stat_error' fs' argv = value_error "Index  Size (MB)  Directory" /\
     topfiles_main py_int stat_error' fs' argv = value_error "Index  Size (MB)  Filename" /\
     exit_status (Uncaught ValueError) <> 0) /\
  (forall K,
     py_int (nth 1 argv EmptyString) = Some K ->
     (fs (nth 2 argv EmptyString) = Unlistable ->
      topcounts_main py_int fs argv = report "Index  Counts  Directory" [] /\
      topdirs_main py_int stat_error fs argv = report "Index  Size (MB)  Directory" [] /\
      topfiles_main py_int stat_error fs argv = report "Index  Size (MB)  Filename" []) /\
     (K <= 0 ->
      topcounts_main py_int fs argv = report "Index  Counts  Directory" [] /\
      (scan_raises stat_error fs (nth 2 argv EmptyString) = false ->
       topdirs_main py_int stat_error fs argv = report "Index  Size (MB)  Directory" [] /\
       topfiles_main py_int stat_error fs argv = report "Index  Size (MB)  Filename" []) /\
      (scan_raises stat_error fs (nth 2 argv EmptyString) = true ->
       topdirs_main py_int stat_error fs argv = os_error "Index  Size (MB)  Directory" /\
       topfiles_main py_int stat_error fs argv = os_error "Index  Size (MB)  Filename")) /\
     exit_status Finished = 0 /\
     exit_status (Uncaught OSError) <> 0).
Proof.
  intros Hargs. split.
  - intros Hint stat_error' fs'. unfold topcounts_main, topdirs_main, topfiles_main.
    rewrite !main_value_error by assumption.
    repeat split. discriminate.
  - intros K Hint.
    rewrite (topcounts_main_scan py_int fs argv K Hargs Hint).
    rewrite (topdirs_main_scan py_int stat_error fs argv K Hargs Hint).
    rewrite (topfiles_main_scan py_int stat_error fs argv K Hargs Hint).
    split; [| split; [| split; [reflexivity | discriminate]]].
    + intros Hfs. rewrite (scan_raises_unlistable stat_error fs _ Hfs).
      destruct (scans_unlistable fs (nth 2 argv EmptyString) K Hfs) as (-> & -> & ->).
      repeat split.
    + intros HK.
      rewrite get_dir_counts_nonpos, get_dir_sizes_nonpos, get_top_n_nonpos by assumption.
      split; [reflexivity | split]; intros ->; split; reflexivity.
Qed.

Lemma config_outcomes_witness :
  (forall stat_error' fs',
     topcounts_main int_literal fs' ["topcounts"; "five"; "/d"]
     = value_error "Index  Counts  Directory" /\
     topdirs_main int_literal stat_error' fs' ["topcounts"; "five"; "/d"]
     = value_error "Index  Size (MB)  Directory" /\
     topfiles_main int_literal stat_error' fs' ["topcounts"; "five"; "/d"]
     = value_error "Index  Size (MB)  Filename" /\
     exit_status (Uncaught ValueError) <> 0) /\
  (topcounts_main int_literal d_fs ["topcounts"; "-1"; "/d"]
   = report "Index  Counts  Directory" [] /\
   topdirs_main int_literal no_stat_error d_fs ["topdirs"; "-1"; "/d"]
   = report "Index  Size (MB)  Directory" [] /\
   topdirs_main int_literal l_stat_error l_fs ["topdirs"; "-1"; "/l"]
   = os_error "Index  Size (MB)  Directory").
Proof.
  split; [| split; [| split]].
  - apply (config_outcomes int_literal no_stat_error d_fs ["topcounts"; "five"; "/d"]);
      reflexivity.
  - apply (config_outcomes int_literal no_stat_error d_fs ["topcounts"; "-1"; "/d"]
             eq_refl) with (K := -1); [reflexivity | lia].
  - apply (config_outcomes int_literal no_stat_error d_fs ["topdirs"; "-1"; "/d"]
             eq_refl) with (K := -1); [reflexivity | lia | reflexivity].
  - apply (config_outcomes int_literal l_stat_error l_fs ["topdirs"; "-1"; "/l"]
             eq_refl) with (K := -1); [reflexivity | lia | reflexivity].
Defined.




(** C10, as stated, fails: with [K = 0] on a tree where one size lookup
    raises an [OSError] that is no [FileNotFoundError] (here a link to
    itself), the scan of [topdirs] returns no list at all but raises,
    and the tool ends after the header with a non-zero status; so does
    [topfiles]. *)
Lemma nonpositive_capacity_can_fail :
  get_dir_sizes_run l_stat_error l_fs "/l" 0 = Raises OSError /\
  find_large_files_run l_stat_error l_fs "/l" 0 = Raises OSError /\
  topdirs_main int_literal l_stat_error l_fs ["topdirs"; "0"; "/l"]
  = os_error "Index  Size (MB)  Directory" /\
  exit_status (exit (topdirs_main int_literal l_stat_error l_fs ["topdirs"; "0"; "/l"]))
  <> 0 /\
  exit_status (exit (topfiles_main int_literal l_stat_error l_fs ["topfiles"; "0"; "/l"]))
  <> 0.
Proof.
  split; [reflexivity | split; [reflexivity | split; [reflexivity | split]]];
    discriminate.
Qed.

(** C10, amended: for every [K <= 0] and every tree the lists the scans
    return are empty: each truncation keeps at most
    [max 0 (length - |K|)] elements and empties the list that has just
    received one element.  [get_dir_counts] always returns; the scans
    of [topdirs] and [topfiles] return unless a size lookup raises an
    [OSError] other than [FileNotFoundError], which they let through.
    With two arguments the tool then prints the header row only and
    ends successfully instead of rejecting [K]; where such a lookup
    raises, [topdirs] and [topfiles] end after the header with the
    uncaught error. *)
Theorem nonpositive_capacity_empty py_int stat_error fs start_dir K argv :
  K <= 0 ->
  get_dir_counts fs start_dir K = [] /\
  get_dir_sizes fs start_dir K = [] /\
  find_large_files fs start_dir K = [] /\
  get_top_n (find_large_files fs start_dir K) K = [] /\
  (forall (M : Type) (l : list (M * string)),
     len (slice_to l K) <= Z.max 0 (len l - Z.abs K)) /\
  (forall (M : Type) (HM : KeyOrder M) (x : M * string), offer K [] x = []) /\
  get_dir_sizes_run stat_error fs start_dir K
  = (if scan_raises stat_error fs start_dir then Raises OSError else Returns []) /\
  find_large_files_run stat_error fs start_dir K
  = (if scan_raises stat_error fs start_dir then Raises OSError else Returns []) /\
  (len argv = 3 ->
   py_int (nth 1 argv EmptyString) = Some K ->
   topcounts_main py_int fs argv = report "Index  Counts  Directory" [] /\
   topdirs_main py_int stat_error fs argv
   = (if scan_raises stat_error fs (nth 2 argv EmptyString)
      then os_error "Index  Size (MB)  Directory"
      else report "Index  Size (MB)  Directory" []) /\
   topfiles_main py_int stat_error fs argv
   = (if scan_raises stat_error fs (nth 2 argv EmptyString)
      then os_error "Index  Size (MB)  Filename"
      else report "Index  Size (MB)  Filename" []) /\
   exit_status Finished = 0 /\
   exit_status (Uncaught OSError) <> 0).
Proof.
  intros HK.
  split; [now apply get_dir_counts_nonpos |].
  split; [now apply get_dir_sizes_nonpos |].
  split; [now apply find_large_files_nonpos |].
  split; [now apply get_top_n_nonpos |].
  split; [intros M l; now apply slice_to_bound |].
  split; [intros M HM x; now apply offer_nonpos |].
  split; [now rewrite get_dir_sizes_run_spec, get_dir_sizes_nonpos |].
  split; [now rewrite find_large_files_run_spec, find_large_files_nonpos |].
  intros Hargs Hint.
  rewrite (topcounts_main_scan py_int fs argv K Hargs Hint).
  rewrite (topdirs_main_scan py_int stat_error fs argv K Hargs Hint).
  rewrite (topfiles_main_scan py_int stat_error fs argv K Hargs Hint).
  rewrite get_dir_counts_nonpos, get_dir_sizes_nonpos, get_top_n_nonpos by assumption.
  split; [reflexivity | split; [reflexivity | split; [reflexivity | split]]];
    [reflexivity | discriminate].
Qed.

Lemma nonpositive_capacity_empty_witness :
  get_dir_counts d_fs "/d" (-2) = [] /\
  get_dir_sizes d_fs "/d" (-2) = [] /\
  find_large_files d_fs "/d" (-2) = [] /\
  get_top_n (find_large_files d_fs "/d" (-2)) (-2) = [] /\
  topcounts_main int_literal d_fs ["topcounts"; "-2"; "/d"]
  = report "Index  Counts  Directory" [].
Proof.
  destruct (nonpositive_capacity_empty int_literal no_stat_error d_fs "/d" (-2)
              ["topcounts"; "-2"; "/d"])
    as (Hc & Hs & Hf & Ht & _ & _ & _ & _ & Hmain); [lia |].
  split; [exact Hc | split; [exact Hs | split; [exact Hf | split; [exact Ht |]]]].
  apply Hmain; reflexivity.
Defined.

(** ** What is kept and what is left out *)

Section Selection.
Context {M : Type} `{KeyOrder M}.

Implicit Types (l : list (M * string)).

Lemma non_increasing_app_le l1 l2 r s :
  non_increasing (l1 ++ l2) = true -> In r l1 -> In s l2 ->
  kleb (metric s) (metric r) = true.
Proof.
  induction l1 as [| a l1 IH]; intros Hs Hr Hin; [destruct Hr |].
  destruct Hr as [-> | Hr].
  - apply (non_increasing_head_max r (l1 ++ l2) s Hs).
    apply in_or_app. now right.
  - apply IH; [exact (non_increasing_tail _ _ Hs) | assumption | assumption].
Qed.

(** A prefix of the sorted list holds the largest measurements. *)
Lemma sorted_prefix_split j l :
  Permutation (firstn j (sort_desc l) ++ skipn j (sort_desc l)) l /\
  forall r s,
    In r (firstn j (sort_desc l)) -> In s (skipn j (sort_desc l)) ->
    kleb (metric s) (metric r) = true.
Proof.
  split.
  - rewrite firstn_skipn. symmetry. apply sort_desc_perm.
  - intros r s Hr Hin. apply (non_increasing_app_le (firstn j (sort_desc l)) (skipn j (sort_desc l))).
    + rewrite firstn_skipn. apply sort_desc_non_increasing.
    + exact Hr.
    + exact Hin.
Qed.

Lemma topk_prefix k k' l : (k <= k')%nat -> topk k l = firstn k (topk k' l).
Proof. intros Hk. unfold topk. rewrite firstn_firstn. f_equal. lia. Qed.

Lemma topk_all k l : (List.length l <= k)%nat -> topk k l = sort_desc l.
Proof. intros Hk. unfold topk. apply firstn_all2. now rewrite sort_desc_length. Qed.

End Selection.

(** X1: with [K >= 0] each scan keeps the largest of what it measured:
    the result together with the measurements left out is a
    rearrangement of all measurements offered, and no measurement left
    out has a metric above that of a measurement kept. *)
Theorem scans_keep_the_largest fs start_dir K :
  0 <= K ->
  (exists rest,
     Permutation (get_dir_counts fs start_dir K ++ rest) (count_offers fs start_dir) /\
     forall r s, In r (get_dir_counts fs start_dir K) -> In s rest -> fst s <= fst r) /\
  (exists rest,
     Permutation (get_dir_sizes fs start_dir K ++ rest) (size_offers fs start_dir) /\
     forall r s, In r (get_dir_sizes fs start_dir K) -> In s rest -> (fst s <= fst r)%Q) /\
  (exists rest,
     Permutation (get_top_n (find_large_files fs start_dir K) K ++ rest)
       (file_offers fs start_dir) /\
     forall r s,
       In r (get_top_n (find_large_files fs start_dir K) K) -> In s rest ->
       (fst s <= fst r)%Q).
Proof.
  intros HK.
  rewrite get_dir_counts_topk, get_dir_sizes_topk, get_top_n_topk by assumption.
  unfold topk. split; [| split].
  - exists (skipn (Z.to_nat K) (sort_desc (count_offers fs start_dir))).
    destruct (sorted_prefix_split (Z.to_nat K) (count_offers fs start_dir)) as [Hperm Hle].
    split; [exact Hperm |]. intros r s Hr Hin. apply Z.leb_le. exact (Hle r s Hr Hin).
  - exists (skipn (Z.to_nat K) (sort_desc (size_offers fs start_dir))).
    destruct (sorted_prefix_split (Z.to_nat K) (size_offers fs start_dir)) as [Hperm Hle].
    split; [exact Hperm |]. intros r s Hr Hin. apply Qle_bool_iff. exact (Hle r s Hr Hin).
  - exists (skipn (Z.to_nat K) (sort_desc (file_offers fs start_dir))).
    destruct (sorted_prefix_split (Z.to_nat K) (file_offers fs start_dir)) as [Hperm Hle].
    split; [exact Hperm |]. intros r s Hr Hin. apply Qle_bool_iff. exact (Hle r s Hr Hin).
Qed.

Lemma scans_keep_the_largest_witness :
  exists rest,
    Permutation (get_dir_counts d_fs "/d" 1 ++ rest) (count_offers d_fs "/d") /\
    forall r s, In r (get_dir_counts d_fs "/d" 1) -> In s rest -> fst s <= fst r.
Proof.
  destruct (scans_keep_the_largest d_fs "/d" 1) as (Hcounts & _); [lia |].
  exact Hcounts.
Defined.

(** X2: a smaller [K] gives the head of the list a larger [K] gives:
    for [0 <= K <= K'] the result for [K] is the result for [K'] cut
    after [K] rows. *)
Theorem smaller_K_is_a_prefix fs start_dir K K' :
  0 <= K <= K' ->
  get_dir_counts fs start_dir K = slice_to (get_dir_counts fs start_dir K') K /\
  get_dir_sizes fs start_dir K = slice_to (get_dir_sizes fs start_dir K') K /\
  get_top_n (find_large_files fs start_dir K) K
  = slice_to (get_top_n (find_large_files fs start_dir K') K') K.
Proof.
  intros HK.
  rewrite !get_dir_counts_topk, !get_dir_sizes_topk, !get_top_n_topk by lia.
  rewrite !slice_to_nonneg by lia.
  repeat split; apply topk_prefix; lia.
Qed.

Lemma smaller_K_is_a_prefix_witness :
  get_dir_counts d_fs "/d" 1 = slice_to (get_dir_counts d_fs "/d" 2) 1 /\
  get_dir_sizes d_fs "/d" 1 = slice_to (get_dir_sizes d_fs "/d" 2) 1 /\
  get_top_n (find_large_files d_fs "/d" 1) 1
  = slice_to (get_top_n (find_large_files d_fs "/d" 2) 2) 1.
Proof. apply (smaller_K_is_a_prefix d_fs "/d" 1 2). lia. Defined.

(** X3: sorting late gives what sorting at every step gives: for every
    [K], [find_large_files] followed by [get_top_n], which sorts only
    once the list is full, returns the list that the loop body of
    [get_dir_counts] and [get_dir_sizes] would leave when run on each
    qualifying file in turn. *)
Theorem late_sort_equals_sort_per_offer fs start_dir K :
  get_top_n (find_large_files fs start_dir K) K
  = fold_left (offer K) (file_offers fs start_dir) [].
Proof.
  destruct (Z.le_gt_cases 0 K) as [HK | HK].
  - now rewrite get_top_n_topk, fold_offer_nil.
  - rewrite get_top_n_nonpos, fold_offer_nonpos by lia. reflexivity.
Qed.

(** ** The list inside [find_large_files] *)

Section FilesLoop.

Lemma fold_left_flat_map {A B C : Type} (f : C -> B -> C) (g : A -> list B) l c :
  fold_left f (flat_map g l) c = fold_left (fun acc a => fold_left f (g a) acc) l c.
Proof.
  revert c. induction l as [| a l IH]; intros c; [reflexivity |].
  cbn [flat_map fold_left]. now rewrite fold_left_app, IH.
Qed.

Lemma fold_left_ext {A C : Type} (f g : C -> A -> C) l c :
  (forall c a, f c a = g c a) -> fold_left f l c = fold_left g l c.
Proof.
  intros Hfg. revert c. induction l as [| a l IH]; intros c; [reflexivity |].
  cbn [fold_left]. now rewrite Hfg, IH.
Qed.

Lemma find_large_files_loop fs start_dir K :
  find_large_files fs start_dir K
  = files_loop K (file_visits (os_walk fs start_dir)) [].
Proof.
  unfold find_large_files, files_loop, file_visits.
  rewrite fold_left_flat_map. apply fold_left_ext.
  intros files e.
  apply (fold_left_map_arg (fun files v => files_step K (fst v) files (snd v))
           (fun f => (root e, f))).
Qed.

Lemma files_loop_inv K visits files ms :
  0 <= K ->
  files_inv (Z.to_nat K) files ms ->
  files_inv (Z.to_nat K) (files_loop K visits files)
    (ms ++ flat_map (fun v => large_file (fst v) (snd v)) visits).
Proof.
  intros HK. unfold files_loop. revert files ms.
  induction visits as [| v visits IH]; intros files ms Hinv.
  - cbn. now rewrite app_nil_r.
  - cbn [fold_left flat_map]. rewrite app_assoc.
    apply IH. now apply files_step_inv.
Qed.

Lemma files_inv_length k files ms :
  files_inv k files ms -> (List.length files <= k)%nat.
Proof.
  unfold files_inv. destruct (Nat.ltb_spec (List.length ms) k); intros ->.
  - lia.
  - rewrite topk_length. lia.
Qed.

Lemma files_inv_nil k : files_inv k [] [].
Proof.
  unfold files_inv. destruct (Nat.ltb_spec (@List.length (Q * string) []) k).
  - reflexivity.
  - now rewrite topk_nil.
Qed.

End FilesLoop.

(** X4: the list that [find_large_files] builds never grows beyond
    [max_files]: for [K >= 0] it holds at most [K] measurements after
    every run of the inner loop body.  What the function returns is the
    qualifying files in walk order, unsorted, when fewer than [K]
    qualify; otherwise it is already the sorted list that [get_top_n]
    returns. *)
Theorem find_large_files_bounded fs start_dir K n :
  0 <= K ->
  find_large_files fs start_dir K
  = files_loop K (file_visits (os_walk fs start_dir)) [] /\
  len (files_loop K (firstn n (file_visits (os_walk fs start_dir))) []) <= K /\
  (len (file_offers fs start_dir) < K ->
   find_large_files fs start_dir K = file_offers fs start_dir) /\
  (K <= len (file_offers fs start_dir) ->
   find_large_files fs start_dir K
   = get_top_n (find_large_files fs start_dir K) K).
Proof.
  intros HK. split; [apply find_large_files_loop | split; [| split]].
  - pose proof (files_loop_inv K (firstn n (file_visits (os_walk fs start_dir)))
                  [] [] HK (files_inv_nil _)) as Hinv.
    apply files_inv_length in Hinv. unfold len. lia.
  - intros Hfew. pose proof (find_large_files_inv fs start_dir K HK) as Hinv.
    unfold files_inv in Hinv.
    destruct (Nat.ltb_spec (List.length (file_offers fs start_dir)) (Z.to_nat K));
      [exact Hinv | unfold len in Hfew; lia].
  - intros Hfull. rewrite get_top_n_topk by assumption.
    pose proof (find_large_files_inv fs start_dir K HK) as Hinv.
    unfold files_inv in Hinv.
    destruct (Nat.ltb_spec (List.length (file_offers fs start_dir)) (Z.to_nat K));
      [unfold len in Hfull; lia | exact Hinv].
Qed.

Lemma find_large_files_bounded_witness :
  len (files_loop 1 (firstn 2 (file_visits (os_walk d_fs "/d"))) []) <= 1 /\
  find_large_files d_fs "/d" 5 = file_offers d_fs "/d" /\
  find_large_files d_fs "/d" 2 = get_top_n (find_large_files d_fs "/d" 2) 2.
Proof.
  split; [| split].
  - apply (find_large_files_bounded d_fs "/d" 1 2). lia.
  - apply (find_large_files_bounded d_fs "/d" 5 0); [lia | vm_compute; reflexivity].
  - apply (find_large_files_bounded d_fs "/d" 2 0); [lia |].
    vm_compute. intros Hgt. discriminate Hgt.
Defined.

(** X5: [get_top_n] on any list and any [n]: the result is in
    non-increasing order and holds the largest elements of the list;
    it has [min n (len files)] elements for [n >= 0] and, a negative
    [n] being no error, all but the [-n] smallest for [n < 0]; for
    [n >= 0] applying it twice changes nothing. *)
Theorem get_top_n_contract (files : list (Q * string)) (n : Z) :
  non_increasing (get_top_n files n) = true /\
  len (get_top_n files n)
  = (if 0 <=? n then Z.min n (len files) else Z.max 0 (len files + n)) /\
  (exists rest,
     Permutation (get_top_n files n ++ rest) files /\
     forall r s, In r (get_top_n files n) -> In s rest -> (fst s <= fst r)%Q) /\
  (0 <= n -> get_top_n (get_top_n files n) n = get_top_n files n).
Proof.
  assert (Hprefix : exists j, get_top_n files n = firstn j (sort_desc files)).
  { unfold get_top_n, slice_to. destruct (0 <=? n); eexists; reflexivity. }
  destruct Hprefix as [j Hj]. split; [| split; [| split]].
  - rewrite Hj. apply firstn_non_increasing, sort_desc_non_increasing.
  - unfold get_top_n, slice_to, len. destruct (Z.leb_spec 0 n);
      rewrite length_firstn, sort_desc_length; lia.
  - exists (skipn j (sort_desc files)). rewrite Hj.
    destruct (sorted_prefix_split j files) as [Hperm Hle].
    split; [exact Hperm |]. intros r s Hr Hin. apply Qle_bool_iff. exact (Hle r s Hr Hin).
  - intros Hn. unfold get_top_n. rewrite !slice_to_nonneg by assumption.
    apply (topk_idem (Z.to_nat n) files).
Qed.

Lemma get_top_n_contract_witness :
  get_top_n (get_top_n (file_offers d_fs "/d") 2) 2 = get_top_n (file_offers d_fs "/d") 2.
Proof. apply (get_top_n_contract (file_offers d_fs "/d") 2). lia. Defined.

(** ** Empty results, counts and totals *)

Section Totals.

Lemma os_walk_nil_iff fs start_dir :
  os_walk fs start_dir = [] <-> is_listed (fs start_dir) = false.
Proof.
  unfold os_walk. destruct (fs start_dir) as [sz | es |]; cbn [is_listed].
  - split; reflexivity.
  - rewrite walk_Dir. split; discriminate.
  - split; reflexivity.
Qed.

Lemma len_zero_iff {A : Type} (l : list A) : len l = 0 <-> l = [].
Proof.
  unfold len. destruct l; cbn [List.length]; split; try reflexivity; try discriminate; lia.
Qed.

Lemma files_of_plain_names es : len (files_of es) = len (plain_names es).
Proof.
  unfold len, plain_names. f_equal.
  induction es as [| [name child] es IH]; [reflexivity |].
  destruct child as [sz | cs |]; cbn in *; now rewrite ?IH.
Qed.

Lemma forget_sizes_Dir es :
  forget_sizes (Dir es) = Dir (map (fun e => (fst e, forget_sizes (snd e))) es).
Proof.
  cbn [forget_sizes]. f_equal.
  induction es as [| [name child] es IH]; [reflexivity |].
  cbn [map fst snd]. now rewrite <- IH.
Qed.

Lemma files_of_forget_length es :
  List.length (files_of (map (fun e => (fst e, forget_sizes (snd e))) es))
  = List.length (files_of es).
Proof.
  induction es as [| [name child] es IH]; [reflexivity |].
  destruct child as [sz | cs |]; cbn [map fst snd files_of forget_sizes List.length].
  - now rewrite IH.
  - rewrite <- IH. destruct (forget_sizes (Dir cs)) eqn:Hf;
      [rewrite forget_sizes_Dir in Hf; discriminate | reflexivity | reflexivity].
  - exact IH.
Qed.

Lemma count_offers_forget n :
  forall top,
    map (fun e => (len (filenames e), root e)) (walk top (forget_sizes n))
    = map (fun e => (len (filenames e), root e)) (walk top n).
Proof.
  induction n as [sz | | es IH] using node_nested_ind; intros top; try reflexivity.
  rewrite forget_sizes_Dir, !walk_Dir. cbn [map filenames root]. f_equal.
  - f_equal. unfold len. now rewrite files_of_forget_length.
  - induction IH as [| [name child] es Hc _ IHes]; [reflexivity |].
    cbn [map flat_map fst snd]. now rewrite !map_app, Hc, IHes.
Qed.

Lemma Qsum_app l1 l2 : (Qsum (l1 ++ l2) == Qsum l1 + Qsum l2)%Q.
Proof.
  unfold Qsum. induction l1 as [| a l1 IH]; cbn [app fold_right].
  - ring.
  - rewrite IH. ring.
Qed.

Lemma Zsum_app l1 l2 : Zsum (l1 ++ l2) = Zsum l1 + Zsum l2.
Proof.
  unfold Zsum. induction l1 as [| a l1 IH]; cbn [app fold_right]; [reflexivity | lia].
Qed.

Lemma Qsum_perm l1 l2 : Permutation l1 l2 -> (Qsum l1 == Qsum l2)%Q.
Proof.
  unfold Qsum.
  induction 1 as [| a l1 l2 _ IH | a b l | l1 l2 l3 _ IH1 _ IH2];
    cbn [fold_right].
  - reflexivity.
  - now rewrite IH.
  - ring.
  - now rewrite IH1.
Qed.

Lemma Zsum_perm l1 l2 : Permutation l1 l2 -> Zsum l1 = Zsum l2.
Proof.
  unfold Zsum.
  induction 1 as [| a l1 l2 _ IH | a b l | l1 l2 l3 _ IH1 _ IH2];
    cbn [fold_right].
  - reflexivity.
  - lia.
  - lia.
  - congruence.
Qed.

Lemma tree_megabytes_Dir es :
  (tree_megabytes (Dir es)
   == direct_megabytes es + Qsum (map (fun e => tree_megabytes (snd e)) es))%Q.
Proof.
  cbn [tree_megabytes]. apply Qplus_comp; [reflexivity |].
  unfold Qsum. induction es as [| [name child] es IH]; [reflexivity |].
  cbn [map fold_right snd]. now rewrite IH.
Qed.

Lemma tree_names_Dir es :
  tree_names (Dir es)
  = len (plain_names es) + Zsum (map (fun e => tree_names (snd e)) es).
Proof.
  cbn [tree_names]. f_equal.
  unfold Zsum. induction es as [| [name child] es IH]; [reflexivity |].
  cbn [map fold_right snd]. now rewrite IH.
Qed.

Lemma size_total n :
  forall top,
    (Qsum (map fst (map (fun e => (dir_size (filenames e), root e)) (walk top n)))
     == tree_megabytes n)%Q.
Proof.
  induction n as [sz | | es IH] using node_nested_ind; intros top; try reflexivity.
  rewrite walk_Dir, tree_megabytes_Dir. cbn [map fst filenames].
  change (Qsum (?a :: ?l)) with (a + Qsum l)%Q.
  apply Qplus_comp; [apply dir_size_direct |].
  induction IH as [| [name child] es Hc _ IHes]; [reflexivity |].
  cbn [flat_map map fst snd]. rewrite !map_app, Qsum_app.
  change (Qsum (?a :: ?l)) with (a + Qsum l)%Q.
  now rewrite Hc, IHes.
Qed.

Lemma count_total n :
  forall top,
    Zsum (map fst (map (fun e => (len (filenames e), root e)) (walk top n)))
    = tree_names n.
Proof.
  induction n as [sz | | es IH] using node_nested_ind; intros top; try reflexivity.
  rewrite walk_Dir, tree_names_Dir. cbn [map fst filenames].
  change (Zsum (?a :: ?l)) with (a + Zsum l).
  f_equal; [apply files_of_plain_names |].
  induction IH as [| [name child] es Hc _ IHes]; [reflexivity |].
  cbn [flat_map map fst snd]. rewrite !map_app, Zsum_app.
  change (Zsum (?a :: ?l)) with (a + Zsum l).
  now rewrite Hc, IHes.
Qed.

End Totals.

(** X6: the directory scans return the empty list exactly when
    [K <= 0] or the start path cannot be listed; the file scan exactly
    when [K <= 0] or no file qualifies.  A start directory that exists
    is always measured itself: an empty one is reported with count 0
    and size 0. *)
Theorem empty_result_iff fs start_dir K :
  (get_dir_counts fs start_dir K = [] <-> K <= 0 \/ is_listed (fs start_dir) = false) /\
  (get_dir_sizes fs start_dir K = [] <-> K <= 0 \/ is_listed (fs start_dir) = false) /\
  (get_top_n (find_large_files fs start_dir K) K = []
   <-> K <= 0 \/ file_offers fs start_dir = []) /\
  (1 <= K -> fs start_dir = Dir [] ->
   get_dir_counts fs start_dir K = [(0, start_dir)] /\
   get_dir_sizes fs start_dir K = [(0%Q, start_dir)]).
Proof.
  split; [| split; [| split]].
  - rewrite <- len_zero_iff, len_get_dir_counts, <- os_walk_nil_iff.
    rewrite <- (len_zero_iff (os_walk fs start_dir)). unfold len. lia.
  - rewrite <- len_zero_iff, len_get_dir_sizes, <- os_walk_nil_iff.
    rewrite <- (len_zero_iff (os_walk fs start_dir)). unfold len. lia.
  - rewrite <- len_zero_iff, len_get_top_n.
    rewrite <- (len_zero_iff (file_offers fs start_dir)). unfold len. lia.
  - intros HK Hfs.
    rewrite get_dir_counts_topk, get_dir_sizes_topk by lia.
    unfold count_offers, size_offers, os_walk. rewrite Hfs.
    cbn [walk map dirs_of files_of filenames root].
    unfold topk. cbn [sort_desc ins].
    replace (Z.to_nat K) with (S (Z.to_nat (K - 1))) by lia.
    rewrite !firstn_cons, !firstn_nil. split; reflexivity.
Qed.

Lemma empty_result_iff_witness :
  get_dir_counts f_fs "/nowhere" 3 = [] /\
  get_dir_counts (fun _ => Dir []) "/e" 3 = [(0, "/e")].
Proof.
  split.
  - apply (empty_result_iff f_fs "/nowhere" 3). right. reflexivity.
  - apply (empty_result_iff (fun _ => Dir []) "/e" 3); [lia | reflexivity].
Defined.

(** X7: in the count mode the metric of a directory is the number of
    names in its listing that are not directories, whatever has become
    of the files: [get_dir_counts] never looks up a size, so a tree in
    which every lookup would fail gives the same result. *)
Theorem count_metric fs start_dir K :
  Forall2
    (fun x v => snd x = fst v /\ fst x = len (plain_names (snd v)))
    (count_offers fs start_dir) (visited start_dir (fs start_dir)) /\
  get_dir_counts fs start_dir K
  = get_dir_counts (fun p => forget_sizes (fs p)) start_dir K.
Proof.
  split.
  - unfold count_offers, os_walk. rewrite walk_visited.
    induction (visited start_dir (fs start_dir)) as [| v vs IH]; [constructor |].
    cbn [map]. constructor; [| exact IH].
    split; [reflexivity | apply files_of_plain_names].
  - rewrite !get_dir_counts_offers. unfold count_offers, os_walk.
    now rewrite count_offers_forget.
Qed.

(** X8: every file is measured once, in the directory that lists it:
    the count metrics of all visited directories add up to the number
    of names of non-directories under them, and, on the trees where the
    binary64 arithmetic of the script is exact (fewer than [2^53] bytes
    directly in each visited directory), the size metrics add up to the
    megabytes of all files that exist there; when [K] is at least the
    number of visited directories the reported rows add up to these
    totals. *)
Theorem metrics_add_up fs start_dir K :
  (walk_exact_in_binary64 fs start_dir = true ->
   (Qsum (map fst (size_offers fs start_dir)) == tree_megabytes (fs start_dir))%Q) /\
  Zsum (map fst (count_offers fs start_dir)) = tree_names (fs start_dir) /\
  (len (os_walk fs start_dir) <= K ->
   (walk_exact_in_binary64 fs start_dir = true ->
    (Qsum (map fst (get_dir_sizes fs start_dir K)) == tree_megabytes (fs start_dir))%Q) /\
   Zsum (map fst (get_dir_counts fs start_dir K)) = tree_names (fs start_dir)).
Proof.
  split; [intros _; apply size_total | split; [apply count_total |]].
  intros HK. assert (HK0 : 0 <= K) by (unfold len in HK; lia).
  rewrite get_dir_sizes_topk, get_dir_counts_topk by assumption.
  rewrite !topk_all.
  - split.
    + intros _. rewrite <- (size_total (fs start_dir) start_dir).
      apply Qsum_perm, Permutation_map. symmetry. apply sort_desc_perm.
    + rewrite <- (count_total (fs start_dir) start_dir).
      apply Zsum_perm, Permutation_map. symmetry. apply sort_desc_perm.
  - unfold count_offers, len in *. rewrite length_map. lia.
  - unfold size_offers, len in *. rewrite length_map. lia.
Qed.

Lemma metrics_add_up_witness :
  (Qsum (map fst (get_dir_sizes d_fs "/d" 2)) == tree_megabytes (d_fs "/d"))%Q /\
  Zsum (map fst (get_dir_counts d_fs "/d" 2)) = tree_names (d_fs "/d").
Proof.
  destruct (metrics_add_up d_fs "/d" 2) as (_ & _ & Hrows).
  destruct Hrows as [Hsizes Hcounts]; [vm_compute; discriminate |].
  split; [apply Hsizes; reflexivity | exact Hcounts].
Defined.

(** ** dates/weeknumber.py *)

Section WeekTheory.

Lemma timedelta_add_ok d n :
  1 <= d + n <= MAXORDINAL -> timedelta_add d n = Some (d + n).
Proof.
  intros [Hlo Hhi]. unfold timedelta_add.
  now rewrite (proj2 (Z.leb_le _ _) Hlo), (proj2 (Z.leb_le _ _) Hhi).
Qed.

Lemma weekday_range d : 0 <= weekday d <= 6.
Proof. unfold weekday. pose proof (Z.mod_pos_bound (d + 6) 7). lia. Qed.

(** The reference day is the Sunday on or before the date, plus four. *)
Lemma thursday_of_closed date :
  1 <= date <= MAXORDINAL ->
  thursday_of date = Some (date - date mod 7 + 4).
Proof.
  intros Hd. unfold thursday_of.
  pose proof (weekday_range date) as Hw.
  assert (Hmax : MAXORDINAL = 3652059) by reflexivity.
  repeat match goal with
         | |- context [weekday date =? ?k] => destruct (Z.eqb_spec (weekday date) k)
         end;
    unfold weekday in *;
    try (rewrite timedelta_add_ok by (rewrite Hmax in *; Z.div_mod_to_equations; lia));
    f_equal; Z.div_mod_to_equations; lia.
Qed.

End WeekTheory.

(** X9: for every date that [datetime] can hold, the chain of
    [if]/[elif] never leaves the range of dates (no [OverflowError],
    not even in the first and last week), and the day it picks is a
    Thursday, the one of the Sunday-to-Saturday week of the date: four
    days after the Sunday on or before the date, so between two days
    before and four days after it. *)
Theorem thursday_of_same_week date :
  1 <= date <= MAXORDINAL ->
  exists wkdate,
    thursday_of date = Some wkdate /\
    wkdate = date - date mod 7 + 4 /\
    weekday wkdate = 3 /\
    1 <= wkdate <= MAXORDINAL /\
    date - 2 <= wkdate <= date + 4.
Proof.
  intros Hd. exists (date - date mod 7 + 4).
  split; [now apply thursday_of_closed | split; [reflexivity |]].
  unfold weekday, MAXORDINAL in *. repeat split; Z.div_mod_to_equations; lia.
Qed.

Lemma thursday_of_same_week_witness :
  exists wkdate,
    thursday_of 739249 = Some wkdate /\
    wkdate = 739249 - 739249 mod 7 + 4 /\
    weekday wkdate = 3 /\
    1 <= wkdate <= MAXORDINAL /\
    739249 - 2 <= wkdate <= 739249 + 4.
Proof. apply (thursday_of_same_week 739249). unfold MAXORDINAL. lia. Defined.

(** X10: the week of the script runs from Sunday to Saturday: two dates
    get the same reference Thursday, hence the same week number, exactly
    when they lie in the same Sunday-to-Saturday week.  From Monday to
    Saturday the Thursday is that of the date's own Monday-based (ISO)
    week; on a Sunday it is that of the week of the following Monday. *)
Theorem week_runs_sunday_to_saturday d1 d2 :
  1 <= d1 <= MAXORDINAL -> 1 <= d2 <= MAXORDINAL ->
  (thursday_of d1 = thursday_of d2 <-> d1 / 7 = d2 / 7) /\
  (weekday d1 <> 6 -> thursday_of d1 = Some (d1 - weekday d1 + 3)) /\
  (weekday d1 = 6 -> thursday_of d1 = Some ((d1 + 1) - weekday (d1 + 1) + 3)).
Proof.
  intros H1 H2. rewrite !thursday_of_closed by assumption.
  split; [| split].
  - split.
    + intros Heq. injection Heq as Heq. Z.div_mod_to_equations. lia.
    + intros Heq. f_equal. Z.div_mod_to_equations. lia.
  - intros Hw. f_equal. unfold weekday in *. Z.div_mod_to_equations. lia.
  - intros Hw. f_equal. unfold weekday in *. Z.div_mod_to_equations. lia.
Qed.

Lemma week_runs_sunday_to_saturday_witness :
  (thursday_of 739249 = thursday_of 739250 <-> 739249 / 7 = 739250 / 7) /\
  (weekday 739249 = 6 ->
   thursday_of 739249 = Some ((739249 + 1) - weekday (739249 + 1) + 3)).
Proof.
  destruct (week_runs_sunday_to_saturday 739249 739250) as (Hiff & _ & Hsun);
    [unfold MAXORDINAL; lia | unfold MAXORDINAL; lia |].
  split; [exact Hiff | exact Hsun].
Defined.

(** X11: what a run of [weeknumber] can do.  An empty date string is
    as good as none: today's date is used.  A date that [strptime]
    rejects ends the run with its [ValueError] before anything is
    printed.  For a date it accepts, the line is always printed: it
    shows the year, month and day of the date itself, its weekday, and
    the week number of the Thursday four days after the Sunday on or
    before it.  The command line uses its first argument only. *)
Theorem weeknumber_outcomes
  (strptime : string -> option Z) (today : Z) (civil : Z -> Z * Z * Z)
  (day_abbr : Z -> string) (isocalendar_week : Z -> Z)
  (c : ascii) (s : string) (date : Z) (argv0 arg1 : string) (more : list string) :
  let weeknumber := weeknumber strptime today civil day_abbr isocalendar_week in
  let main := weeknumber_main strptime today civil day_abbr isocalendar_week in
  weeknumber (Some EmptyString) = weeknumber None /\
  (strptime (String c s) = None ->
   weeknumber (Some (String c s)) = Raised StrptimeValueError) /\
  (strptime (String c s) = Some date -> 1 <= date <= MAXORDINAL ->
   weeknumber (Some (String c s))
   = Printed (format_0d 4 (fst (fst (civil date))) ++ "-"
              ++ format_0d 2 (snd (fst (civil date))) ++ "-"
              ++ format_0d 2 (snd (civil date)) ++ " (" ++ day_abbr date ++ ") W"
              ++ format_0d 2 (isocalendar_week (date - date mod 7 + 4)))%string) /\
  main [argv0] = weeknumber None /\
  main (argv0 :: arg1 :: more) = weeknumber (Some arg1).
Proof.
  cbn zeta. split; [reflexivity | split; [| split; [| split]]].
  - intros Hbad. unfold weeknumber. now rewrite Hbad.
  - intros Hok Hd. unfold weeknumber. rewrite Hok.
    now rewrite thursday_of_closed.
  - reflexivity.
  - unfold weeknumber_main, len. cbn [List.length nth].
    destruct (Z.gtb_spec (Z.of_nat (S (S (List.length more)))) 1); [reflexivity | lia].
Qed.

Lemma weeknumber_outcomes_witness :
  weeknumber (fun s => if String.eqb s "2024-12-29" then Some 739249 else None)
    739249 (fun _ => (2024, 12, 29)) (fun _ => "Sun") (fun _ => 1)
    (Some "2024-12-29")
  = Printed "2024-12-29 (Sun) W01" /\
  weeknumber (fun s => if String.eqb s "2024-12-29" then Some 739249 else None)
    739249 (fun _ => (2024, 12, 29)) (fun _ => "Sun") (fun _ => 1)
    (Some "tomorrow")
  = Raised StrptimeValueError.
Proof.
  destruct (weeknumber_outcomes
              (fun s => if String.eqb s "2024-12-29" then Some 739249 else None)
              739249 (fun _ => (2024, 12, 29)) (fun _ => "Sun") (fun _ => 1)
              "2" "024-12-29" 739249 "weeknumber" "x" [])
    as (_ & _ & Hprint & _).
  destruct (weeknumber_outcomes
              (fun s => if String.eqb s "2024-12-29" then Some 739249 else None)
              739249 (fun _ => (2024, 12, 29)) (fun _ => "Sun") (fun _ => 1)
              "t" "omorrow" 739249 "weeknumber" "x" [])
    as (_ & Hbad & _).
  split.
  - apply Hprint; [reflexivity | unfold MAXORDINAL; lia].
  - apply Hbad. reflexivity.
Defined.

(** ** No row twice *)

Section NoRepeat.

Lemma topk_rest {M : Type} `{KeyOrder M} k (l : list (M * string)) :
  exists rest, Permutation (topk k l ++ rest) l.
Proof.
  exists (skipn k (sort_desc l)). apply (sorted_prefix_split k l).
Qed.

Lemma NoDup_paths_kept {M : Type} (kept rest all : list (M * string)) :
  Permutation (kept ++ rest) all ->
  NoDup (map snd all) -> NoDup (map snd kept).
Proof.
  intros Hperm Hnodup.
  apply (Permutation_map snd) in Hperm. symmetry in Hperm.
  apply (Permutation_NoDup Hperm) in Hnodup.
  rewrite map_app in Hnodup. exact (NoDup_app_remove_r _ _ Hnodup).
Qed.

End NoRepeat.

(** X12: no path is reported twice: when the walk gives every
    directory once, the rows of [get_dir_counts] and [get_dir_sizes]
    name pairwise different directories, and when no qualifying file
    path occurs twice the rows of the file scan name pairwise different
    files, for every [K]. *)
Theorem no_path_reported_twice fs start_dir K :
  (NoDup (map root (os_walk fs start_dir)) ->
   NoDup (map snd (get_dir_counts fs start_dir K)) /\
   NoDup (map snd (get_dir_sizes fs start_dir K))) /\
  (NoDup (map snd (file_offers fs start_dir)) ->
   NoDup (map snd (get_top_n (find_large_files fs start_dir K) K))).
Proof.
  destruct (Z.le_gt_cases 0 K) as [HK | HK].
  - rewrite get_dir_counts_topk, get_dir_sizes_topk, get_top_n_topk by assumption.
    split.
    + intros Hroots. split.
      * destruct (topk_rest (Z.to_nat K) (count_offers fs start_dir)) as [rest Hperm].
        apply (NoDup_paths_kept _ rest _ Hperm).
        unfold count_offers. now rewrite map_map.
      * destruct (topk_rest (Z.to_nat K) (size_offers fs start_dir)) as [rest Hperm].
        apply (NoDup_paths_kept _ rest _ Hperm).
        unfold size_offers. now rewrite map_map.
    + intros Hpaths.
      destruct (topk_rest (Z.to_nat K) (file_offers fs start_dir)) as [rest Hperm].
      exact (NoDup_paths_kept _ rest _ Hperm Hpaths).
  - rewrite get_dir_counts_nonpos, get_dir_sizes_nonpos, get_top_n_nonpos by lia.
    repeat split; constructor.
Qed.

Lemma no_path_reported_twice_witness :
  NoDup (map snd (get_dir_counts d_fs "/d" 2)) /\
  NoDup (map snd (get_dir_sizes d_fs "/d" 2)).
Proof.
  apply (no_path_reported_twice d_fs "/d" 2).
  vm_compute. repeat constructor.
  - intros [Heq | []]. discriminate Heq.
  - intros [].
Defined.
